(** * ffxiv_pyramid: themed football pyramids

    A shallow embedding of the Python package [ffxiv_pyramid]
    ([model.py], [data.py], [generator.py], [io.py]) together with the
    properties of its generator and serialiser.

    Conventions of the embedding:
    - a Python [int] is a [Z]; a [str] is a [string] holding its UTF-8
      bytes (byte-wise lexicographic order coincides with Python's
      code-point order);
    - a call either returns ([Ok]), raises ([Raise]) or, for the one
      unbounded [while] loop of the package, exhausts the iteration
      budget it was given ([OutOfFuel]);
    - [random.Random], [datetime] and the builtin [int] applied to a
      [str] belong to the Python runtime and are taken as interfaces;
    - a [dict] is a [gmap], a [set] a [gset]. *)

From Stdlib Require Import ZArith Lia Ascii.
From stdpp Require Import gmap strings list fin_maps sorting pretty.

Local Open Scope Z_scope.
Set Warnings "-clear-no-such-hyp".

(** ** Outcomes of a call *)

Inductive exn :=
| ValueError (msg : string)
| KeyError (msg : string)
| IndexError
| TypeError
| AttributeError
| Unsupported.

Inductive result (A : Type) :=
| Ok (a : A)
| Raise (e : exn)
| OutOfFuel.
Arguments Ok {A} a.
Arguments Raise {A} e.
Arguments OutOfFuel {A}.

Definition result_bind {A B} (r : result A) (k : A → result B) : result B :=
  match r with
  | Ok a => k a
  | Raise e => Raise e
  | OutOfFuel => OutOfFuel
  end.

Definition result_map {A B} (f : A → B) (r : result A) : result B :=
  result_bind r (λ a, Ok (f a)).

Fixpoint result_mapM {A B} (f : A → result B) (l : list A) : result (list B) :=
  match l with
  | [] => Ok []
  | x :: l' =>
      result_bind (f x) (λ y,
      result_bind (result_mapM f l') (λ ys, Ok (y :: ys)))
  end.

Definition is_Ok {A} (r : result A) : Prop := ∃ a, r = Ok a.

(** ** Python values that occur in documents and in [meta] *)

#[warnings="-register-all"]
Inductive json :=
| JNull
| JBool (b : bool)
| JInt (z : Z)
| JStr (s : string)
| JList (l : list json)
| JObj (m : gmap string json).

(** ** model.py *)

Module Team.
Record t := mk {
  name : string;
  location : string;
  inspiration : string;
  notes : option string;
}.
End Team.

Module Division.
Record t := mk {
  level : Z;
  name : string;
  short_name : option string;
  teams : list Team.t;
}.
End Division.

Module Pyramid.
Record t (datetime : Type) := mk {
  title : string;
  description : string;
  divisions : list Division.t;
  meta : gmap string json;
  generated_at : option datetime;
}.
Arguments mk {datetime}.
Arguments title {datetime}.
Arguments description {datetime}.
Arguments divisions {datetime}.
Arguments meta {datetime}.
Arguments generated_at {datetime}.
End Pyramid.

(** [list.sort(key=...)]: the stable ascending sort.  Python places an
    element after another only when its key is strictly smaller; on a
    total order that is insertion before the first element whose key is
    not smaller. *)
Section list_sort.
Context {A K : Type} (R : relation K) `{!RelDecision R} (key : A → K).

Fixpoint sort_insert (x : A) (l : list A) : list A :=
  match l with
  | [] => [x]
  | y :: l' =>
      if decide (R (key x) (key y)) then x :: l else y :: sort_insert x l'
  end.

Definition list_sort (l : list A) : list A := foldr sort_insert [] l.

(** In order of the keys *)
Definition key_sorted (l : list A) : Prop := StronglySorted R (key <$> l).
End list_sort.

Definition sort_teams (d : Division.t) : Division.t :=
  Division.mk (Division.level d) (Division.name d) (Division.short_name d)
    (list_sort String.le Team.name (Division.teams d)).

(** [Pyramid.sort] *)
Definition sort {datetime} (p : Pyramid.t datetime) : Pyramid.t datetime :=
  Pyramid.mk (Pyramid.title p) (Pyramid.description p)
    (sort_teams <$> list_sort Z.le Division.level (Pyramid.divisions p))
    (Pyramid.meta p) (Pyramid.generated_at p).

(** ** data.py *)

Module Theme.
Record t := mk {
  key : string;
  region_name : string;
  short_prefix : string;
  premier_title : string;
  championship_title : string;
  lower_division_title : string;
  highlight : string;
  locations : list string;
  mascots : list string;
  adjectives : list string;
  inspirations : list string;
  notes_templates : list string;
}.
End Theme.

(** [Theme.iter_location_cycle].  The generator is taken as the state it
    is suspended in: what is left of the running [for] loop over
    [locations], nothing before the first value is asked for.
    [iter_location_cycle_next] is [next] on it, giving the value
    yielded and the state after; [fuel] bounds the rounds of
    [while True] one call may enter. *)
Definition iter_location_cycle (theme : Theme.t) : list string := [].

Fixpoint iter_location_cycle_next (fuel : nat) (theme : Theme.t) (rest : list string)
    {struct fuel} : result (string * list string) :=
  match rest with
  | location :: rest' => Ok (location, rest')
  | [] =>
      match fuel with
      | O => OutOfFuel
      | S fuel' => iter_location_cycle_next fuel' theme (Theme.locations theme)
      end
  end.

(** [list(itertools.islice(generator, n))] *)
Fixpoint islice (fuel : nat) (theme : Theme.t) (n : nat) (rest : list string)
    : result (list string) :=
  match n with
  | O => Ok []
  | S n' =>
      result_bind (iter_location_cycle_next fuel theme rest) (λ lr,
      result_map (cons lr.1) (islice fuel theme n' lr.2))
  end.

Definition theme_eorzea : Theme.t :=
  {| Theme.key := "eorzea";
     Theme.region_name := "Eorzean";
     Theme.short_prefix := "EFL";
     Theme.premier_title := "Eorzean Premier League";
     Theme.championship_title := "Grand Company Championship";
     Theme.lower_division_title := "City-State Division";
     Theme.highlight :=
       "The heart of the realm where Gridania, Limsa Lominsa, Ul'dah, and Ishgard compete.";
     Theme.locations :=
       [ "Gridania"; "Limsa Lominsa"; "Ul'dah"; "Ishgard"; "Sharlayan";
         "Radz-at-Han"; "Mor Dhona"; "La Noscea"; "Coerthas"; "Thanalan";
         "The Dravanian Forelands"; "Lakeland"; "Thavnair"; "Old Sharlayan";
         "Labyrinthos"; "Kugane"; "Idyllshire"; "Garlemald Reclaimed";
         "The Crystarium"; "Old Gridania" ];
     Theme.mascots :=
       [ "Scions"; "Seedseers"; "Maelstrom"; "Immortals"; "Temple Knights";
         "Astrologians"; "Nald'thal"; "Azure Drakes"; "Carbuncle"; "Chocobos";
         "Free Paladins"; "Gobwalkers"; "Sky Pirates"; "Radiant Dawn";
         "House Fortemps"; "Conjurers"; "Adders"; "Flames"; "Blades"; "Dragoons" ];
     Theme.adjectives :=
       [ "Twin"; "Rising"; "Mythril"; "Heavensward"; "Stormborn"; "Starlit";
         "Ruby"; "Umbral"; "Astral"; "Azure"; "Verdant"; "Gilded"; "Crystalline";
         "Eternal"; "Radiant" ];
     Theme.inspirations :=
       [ "Scions of the Seventh Dawn"; "Order of the Twin Adder";
         "Immortal Flames"; "Maelstrom"; "Temple Knights";
         "Ishgardian Restoration"; "Crystarium Guard"; "Students of Baldesion";
         "Radz-at-Han alchemists"; "Sharlayan Forum"; "Bozjan Resistance" ];
     Theme.notes_templates :=
       [ "Backed by the {inspiration} from {location}.";
         "Founded by veterans of the {inspiration}.";
         "Club culture steeped in {inspiration} tradition.";
         "Hails from {location} with {inspiration} influence." ] |}.

Definition theme_far_east : Theme.t :=
  {| Theme.key := "far_east";
     Theme.region_name := "Far Eastern";
     Theme.short_prefix := "FEF";
     Theme.premier_title := "Kugane Premier Division";
     Theme.championship_title := "Hingan Championship";
     Theme.lower_division_title := "Eastern League";
     Theme.highlight :=
       "The trading ports of Kugane, the rebel lands of Doma, and the wandering Steppe tribes collide.";
     Theme.locations :=
       [ "Kugane"; "Doma"; "Yanxia"; "The Azim Steppe"; "Hingashi"; "Sui-no-Sato";
         "The Ruby Sea"; "Isari"; "Namai"; "Tsurumi";
         "Shisui of the Violet Tides"; "Reunion"; "Tamamizu"; "Shirogane";
         "Onokoro"; "Seigetsu" ];
     Theme.mascots :=
       [ "Sekiseigumi"; "Raen"; "Xaela"; "Ruby Ronin"; "Steppe Riders";
         "Doman Clans"; "Geiko"; "Raijin"; "Komainu"; "Crimson Lancers";
         "Blue Oni"; "Sea Wolves"; "Tengu"; "Moonlit Ronin"; "Skyfarers" ];
     Theme.adjectives :=
       [ "Blossom"; "Moonlit"; "Stormjade"; "Tempest"; "Crimson"; "Azure";
         "Sakura"; "Silver"; "Verdant"; "Dragon" ];
     Theme.inspirations :=
       [ "Sekiseigumi"; "House of the Fierce"; "Confederacy";
         "Doman Liberation Front"; "Mol Warriors"; "Seiryu Temple";
         "Tales of the Ruby Princess" ];
     Theme.notes_templates :=
       [ "Backed by the {inspiration} from {location}.";
         "Combines tactics from the {inspiration} with Far Eastern flair.";
         "Favoured by sailors of the {inspiration}." ] |}.

Definition theme_garlemald : Theme.t :=
  {| Theme.key := "garlemald";
     Theme.region_name := "Imperial";
     Theme.short_prefix := "IGL";
     Theme.premier_title := "Imperial Supremacy League";
     Theme.championship_title := "Praetoriate Championship";
     Theme.lower_division_title := "Legion Divisions";
     Theme.highlight :=
       "Reformed Garlean legions and liberated provinces contest the imperial title.";
     Theme.locations :=
       [ "Garlemald"; "Bozja"; "Werlyt"; "Dalmasca"; "Ala Mhigo"; "Terncliff";
         "Paglth'an"; "Corvos"; "Iskaal"; "Locus Amoenus"; "Porta Praetoria";
         "Tertium"; "Zadnor" ];
     Theme.mascots :=
       [ "Magitek"; "Legati"; "Centurions"; "Ceruleum"; "Gunblades";
         "Dreadnaughts"; "Praetorians"; "Machina"; "Imperial Fangs";
         "Ala Mhigan Shields"; "Resistance" ];
     Theme.adjectives :=
       [ "Adamant"; "Iron"; "Cerulean"; "Imperial"; "Reborn"; "Resolute"; "Steel";
         "Vanguard" ];
     Theme.inspirations :=
       [ "IVth Legion"; "Bozjan Resistance"; "Werlyt Rebellion";
         "Dalmascan Royalists"; "Ala Mhigan Monks"; "Corvos Insurgents" ];
     Theme.notes_templates :=
       [ "Former {inspiration} unit now focused on footballing glory.";
         "Uses magitek support from {location}.";
         "Celebrates {inspiration} heritage in every match." ] |}.

(** The module-level table [THEMES]. *)
Definition THEMES : gmap string Theme.t :=
  list_to_map
    [ ("eorzea", theme_eorzea);
      ("far_east", theme_far_east);
      ("garlemald", theme_garlemald) ].

(** [str.lower] on the ASCII range, which is where every key of
    [THEMES] lives; bytes of other characters are left alone. *)
Definition ascii_lower (c : ascii) : ascii :=
  let n := Ascii.nat_of_ascii c in
  if bool_decide (65 ≤ n ≤ 90)%nat then Ascii.ascii_of_nat (n + 32) else c.

Fixpoint str_map (f : ascii → ascii) (s : string) : string :=
  match s with
  | EmptyString => EmptyString
  | String c s' => String (f c) (str_map f s')
  end.

Definition lower (s : string) : string := str_map ascii_lower s.

(** [s.replace(old, new)] for one-character [old] and [new]. *)
Definition replace_char (old new : ascii) (s : string) : string :=
  str_map (λ c, if decide (c = old) then new else c) s.

(** [sep.join(parts)] *)
Fixpoint join (sep : string) (parts : list string) : string :=
  match parts with
  | [] => ""
  | [p] => p
  | p :: rest => p +:+ sep +:+ join sep rest
  end.

(** [sorted(d)] for a dict with string keys. *)
Definition sorted_keys {V} (d : gmap string V) : list string :=
  list_sort String.le id (map_to_list d).*1.

Definition get_theme (key : string) : result Theme.t :=
  let lowered := replace_char "-" "_" (lower key) in
  match THEMES !! lowered with
  | None =>
      let available := join ", " (sorted_keys THEMES) in
      Raise (KeyError ("Unknown theme '" +:+ key +:+ "'. Available themes: "
                       +:+ available))
  | Some theme => Ok theme
  end.

(** ** Python runtime *)

(** [str.format] with keyword arguments, for the templates of this package:
    literal text, the escapes [{{] and [}}], and named replacement
    fields [{name}].  Conversions, format specifications, attribute and
    index lookups (a field holding one of [! : . [ ]) are not modelled
    and reported as [Unsupported]; no template of [THEMES] has one. *)
Definition is_digit (c : ascii) : bool :=
  bool_decide (48 ≤ Ascii.nat_of_ascii c ≤ 57)%nat.

Fixpoint str_forallb (f : ascii → bool) (s : string) : bool :=
  match s with
  | EmptyString => true
  | String c s' => f c && str_forallb f s'
  end.

Definition plain_field_char (c : ascii) : bool :=
  negb (bool_decide (c ∈ ["!"; ":"; "."; "["; "]"; "{"]%char)).

Definition format_field (kwargs : gmap string string) (name : string) : result string :=
  if str_forallb is_digit name then Raise IndexError
  else if negb (str_forallb plain_field_char name) then Raise Unsupported
  else
    match kwargs !! name with
    | Some v => Ok v
    | None => Raise (KeyError name)
    end.

Fixpoint format_go (kwargs : gmap string string) (field : option string)
    (s : string) {struct s} : result string :=
  match s with
  | EmptyString =>
      match field with
      | None => Ok ""
      | Some _ => Raise (ValueError "expected '}' before end of string")
      end
  | String c s' =>
      match field with
      | Some name =>
          if decide (c = "}"%char) then
            result_bind (format_field kwargs name) (λ v,
            result_map (String.append v) (format_go kwargs None s'))
          else format_go kwargs (Some (name +:+ String c "")) s'
      | None =>
          if decide (c = "{"%char) then
            match s' with
            | String "{"%char s'' =>
                result_map (String "{"%char) (format_go kwargs None s'')
            | _ => format_go kwargs (Some "") s'
            end
          else if decide (c = "}"%char) then
            match s' with
            | String "}"%char s'' =>
                result_map (String "}"%char) (format_go kwargs None s'')
            | _ => Raise (ValueError "Single '}' encountered in format string")
            end
          else result_map (String c) (format_go kwargs None s')
      end
  end.

Definition format (template : string) (kwargs : gmap string string) : result string :=
  format_go kwargs None template.

(** [random.Random]: a generator state, its two ways of seeding (from an
    integer, or from operating-system entropy when the seed is [None]),
    [_randbelow(n)], which underlies [choice], and [random()], which
    returns [k / 2^53] for the 53-bit integer [k] given here. *)
Record RandomLib := {
  rng : Type;
  entropy : Type;
  seed_int : Z → rng;
  seed_os : entropy → rng;
  randbelow : nat → rng → nat * rng;
  random53 : rng → Z * rng;
  randbelow_lt n s : (0 < n)%nat → ((randbelow n s).1 < n)%nat;
}.

(** [datetime]: [isoformat] and its documented inverse [fromisoformat];
    an ISO text is never the empty string. *)
Record DatetimeLib := {
  datetime : Type;
  isoformat : datetime → string;
  fromisoformat : string → option datetime;
  fromisoformat_isoformat d : fromisoformat (isoformat d) = Some d;
  isoformat_nonempty d : isoformat d ≠ "";
}.

(** ** generator.py *)

Definition _EXTRA_TEAM_SUFFIXES : list string :=
  ["FC"; "United"; "Wanderers"; "Rovers"; "Dynasts"; "Guard"; "Club"].

Definition numerals : list (Z * string) :=
  [ (1000, "M"); (900, "CM"); (500, "D"); (400, "CD"); (100, "C");
    (90, "XC"); (50, "L"); (40, "XL"); (10, "X"); (9, "IX"); (5, "V");
    (4, "IV"); (1, "I") ].

(** The inner loop [while remaining >= value] of [_roman], run for at
    most [fuel] iterations on the pair [(result, remaining)]. *)
Fixpoint roman_while (fuel : nat) (value : Z) (numeral : string)
    (st : list string * Z) : list string * Z :=
  match fuel with
  | O => st
  | S fuel' =>
      if bool_decide (value ≤ st.2)
      then roman_while fuel' value numeral (st.1 ++ [numeral], st.2 - value)
      else st
  end.

(** One pass of the [for value, numeral in numerals] loop.  Every value
    of the table is at least 1, so [remaining] iterations are enough for
    the inner loop to run to its exit (lemma [roman_while_exit]). *)
Definition roman_step (st : list string * Z) (vn : Z * string) : list string * Z :=
  roman_while (Z.to_nat st.2) vn.1 vn.2 st.

Definition _roman (number : Z) : string :=
  let result := (foldl roman_step ([], number) numerals).1 in
  match result with
  | [] => "I"
  | _ => join "" result
  end.

(** [seq[i]] on a list, with Python's negative indices. *)
Definition getitem {A} (seq : list A) (i : Z) : result A :=
  let n := Z.of_nat (length seq) in
  let j := if bool_decide (i < 0) then i + n else i in
  if bool_decide (0 ≤ j < n) then
    match seq !! Z.to_nat j with
    | Some x => Ok x
    | None => Raise IndexError
    end
  else Raise IndexError.

(** Truth value of an optional sequence ([None] and the empty sequence
    are false). *)
Definition truthy_seq {A} (o : option (list A)) : bool :=
  match o with
  | Some (_ :: _) => true
  | _ => false
  end.

Definition _division_name (theme : Theme.t) (level total_levels : Z)
    (custom : option (list string)) : result string :=
  if truthy_seq custom && bool_decide (level ≤ Z.of_nat (length (default [] custom)))
  then getitem (default [] custom) (level - 1)
  else if bool_decide (level = 1) then Ok (Theme.premier_title theme)
  else if bool_decide (level = 2) then Ok (Theme.championship_title theme)
  else
    let suffix := Theme.lower_division_title theme in
    let roman_value := _roman (level - 2) in
    Ok (Theme.region_name theme +:+ " " +:+ suffix +:+ " " +:+ roman_value).

Definition _short_name (theme : Theme.t) (level : Z) : string :=
  Theme.short_prefix theme +:+ " L" +:+ pretty level.

(** The double nearest to [0.55] is [4953959590107546 / 2^53], so
    [rng.random() < 0.55] compares the 53-bit numerator with it. *)
Definition float_0_55 : Z := 4953959590107546.

Section generator.
Variable R : RandomLib.

(** What [generate_pyramid] threads through its helpers: the one
    [random.Random] instance and the shared set [used_names]. *)
Record gen_state := GenState {
  st_rng : rng R;
  used_names : gset string;
}.

Definition M (A : Type) : Type := gen_state → result (A * gen_state).

Definition gen_ret {A} (a : A) : M A := λ st, Ok (a, st).

Definition gen_bind {A B} (m : M A) (k : A → M B) : M B := λ st,
  match m st with
  | Ok (a, st') => k a st'
  | Raise e => Raise e
  | OutOfFuel => OutOfFuel
  end.

Definition gen_lift {A} (r : result A) : M A := λ st,
  result_map (λ a, (a, st)) r.

(** A computation whose result, once it returns, stays the same under a
    larger iteration budget. *)
Definition fuel_mono {A} (m : nat → M A) : Prop :=
  ∀ fuel fuel' st r, (fuel ≤ fuel')%nat → m fuel st = Ok r → m fuel' st = Ok r.

Notation "'let!' x ':=' m 'in' k" := (gen_bind m (λ x, k))
  (at level 10, x name, m at level 100, k at level 200, only parsing).

(** [rng.choice(seq)] *)
Definition choice {A} (seq : list A) : M A := λ st,
  match seq with
  | [] => Raise IndexError
  | _ =>
      let ir := randbelow R (length seq) (st_rng st) in
      match seq !! ir.1 with
      | Some x => Ok (x, GenState ir.2 (used_names st))
      | None => Raise IndexError
      end
  end.

(** [rng.random()], as its numerator over [2^53] *)
Definition random : M Z := λ st,
  let kr := random53 R (st_rng st) in
  Ok (kr.1, GenState kr.2 (used_names st)).

(** [used_names.add(name)] *)
Definition add_used_name (name : string) : M unit := λ st,
  Ok (tt, GenState (st_rng st) ({[ name ]} ∪ used_names st)).

(** The loop [while name in used_names] of [_build_team]; [name] is
    the loop variable, [fuel] bounds the number of iterations. *)
Fixpoint while_name_used (fuel : nat) (base_name name : string) : M string := λ st,
  if decide (name ∈ used_names st) then
    match fuel with
    | O => OutOfFuel
    | S fuel' =>
        (let! suffix := choice _EXTRA_TEAM_SUFFIXES in
         while_name_used fuel' base_name (base_name +:+ " " +:+ suffix)) st
    end
  else Ok (name, st).

Definition _build_team (fuel : nat) (theme : Theme.t) : M Team.t :=
  let! location := choice (Theme.locations theme) in
  let! mascot := choice (Theme.mascots theme) in
  let! adjective := choice (Theme.adjectives theme) in
  let! r := random in
  let base_name :=
    if bool_decide (r < float_0_55) then location +:+ " " +:+ mascot
    else location +:+ " " +:+ adjective +:+ " " +:+ mascot in
  let! name := while_name_used fuel base_name base_name in
  let! _ := add_used_name name in
  let! inspiration := choice (Theme.inspirations theme) in
  let! notes_template := choice (Theme.notes_templates theme) in
  let! notes :=
    gen_lift (format notes_template
                {[ "inspiration" := inspiration; "location" := location ]}) in
  gen_ret (Team.mk name location inspiration (Some notes)).

(** [[m for _ in range(n)]] *)
Fixpoint repeatM {A} (n : nat) (m : M A) : M (list A) :=
  match n with
  | O => gen_ret []
  | S n' =>
      let! x := m in
      let! xs := repeatM n' m in
      gen_ret (x :: xs)
  end.

Definition _build_division (fuel : nat) (theme : Theme.t) (level team_count
    total_levels : Z) (custom_names : option (list string)) : M Division.t :=
  let! name := gen_lift (_division_name theme level total_levels custom_names) in
  let short_name := _short_name theme level in
  let! teams := repeatM (Z.to_nat team_count) (_build_team fuel theme) in
  gen_ret (Division.mk level name (Some short_name) teams).

(** The loop [for idx, team_count in enumerate(level_sizes, start=1)]
    of [generate_pyramid], from position [idx] on. *)
Fixpoint build_divisions (fuel : nat) (theme : Theme.t) (total_levels : Z)
    (custom_names : option (list string)) (idx : Z) (sizes : list Z)
    : M (list Division.t) :=
  match sizes with
  | [] => gen_ret []
  | team_count :: sizes' =>
      let! division :=
        _build_division fuel theme idx team_count total_levels custom_names in
      let! divisions :=
        build_divisions fuel theme total_levels custom_names (idx + 1) sizes' in
      gen_ret (division :: divisions)
  end.

(** [random.Random(seed)] *)
Definition Random (seed : option Z) (os_entropy : entropy R) : rng R :=
  match seed with
  | Some a => seed_int R a
  | None => seed_os R os_entropy
  end.

(** [value or fallback] on an optional string *)
Definition str_or (value : option string) (fallback : string) : string :=
  match value with
  | Some s => if decide (s = "") then fallback else s
  | None => fallback
  end.

Definition seed_json (seed : option Z) : json :=
  match seed with
  | Some a => JInt a
  | None => JNull
  end.

Definition build_meta (theme_obj : Theme.t) (seed : option Z) (level_sizes : list Z)
    (custom_division_names : option (list string))
    (extra_meta : option (gmap string json)) : gmap string json :=
  let meta : gmap string json :=
    {[ "theme" := JStr (Theme.key theme_obj);
       "seed" := seed_json seed;
       "levels" := JList (JInt <$> level_sizes);
       "short_prefix" := JStr (Theme.short_prefix theme_obj);
       "generated_using" := JStr "ffxiv_pyramid" ]} in
  let meta :=
    if truthy_seq custom_division_names
    then <[ "custom_division_names" :=
              JList (JStr <$> default [] custom_division_names) ]> meta
    else meta in
  match extra_meta with
  | Some extra => if decide (extra = ∅) then meta else extra ∪ meta
  | None => meta
  end.

(** [generate_pyramid]; [now] is the reading of [datetime.utcnow()]
    and [os_entropy] what the operating system hands to
    [random.Random(None)]. *)
Definition generate_pyramid {datetime : Type} (fuel : nat) (now : datetime)
    (os_entropy : entropy R) (level_sizes : list Z) (theme : string)
    (seed : option Z) (title description : option string)
    (custom_division_names : option (list string))
    (extra_meta : option (gmap string json)) : result (Pyramid.t datetime) :=
  match level_sizes with
  | [] => Raise (ValueError "At least one level size is required to generate a pyramid.")
  | _ =>
      result_bind (get_theme theme) (λ theme_obj,
      let rng0 := Random seed os_entropy in
      let total_levels := Z.of_nat (length level_sizes) in
      result_bind
        (build_divisions fuel theme_obj total_levels custom_division_names 1
           level_sizes (GenState rng0 ∅)) (λ ds,
      let divisions := ds.1 in
      let pyramid_title :=
        str_or title (Theme.region_name theme_obj +:+ " Football Pyramid") in
      let pyramid_description := str_or description (Theme.highlight theme_obj) in
      let meta :=
        build_meta theme_obj seed level_sizes custom_division_names extra_meta in
      Ok (sort (Pyramid.mk pyramid_title pyramid_description divisions meta
                  (Some now)))))
  end.
End generator.
Arguments fuel_mono {R A} m.

(** ** io.py *)

(** The dynamic operations [dict_to_pyramid] applies to the values of a
    parsed document. *)

(** [for x in v] *)
Definition iterate (v : json) : result (list json) :=
  match v with
  | JList l => Ok l
  | JStr s => Ok ((λ c, JStr (String c "")) <$> String.list_ascii_of_string s)
  | JObj m => Ok (JStr <$> (map_to_list m).*1)
  | JNull | JBool _ | JInt _ => Raise TypeError
  end.

(** [v.get(key, fallback)] *)
Definition dict_get (v : json) (key : string) (fallback : json) : result json :=
  match v with
  | JObj m => Ok (default fallback (m !! key))
  | _ => Raise AttributeError
  end.

(** [v[key]] for a string [key] *)
Definition subscript (v : json) (key : string) : result json :=
  match v with
  | JObj m =>
      match m !! key with
      | Some x => Ok x
      | None => Raise (KeyError key)
      end
  | _ => Raise TypeError
  end.

(** Truth value of a document value *)
Definition truthy (v : json) : bool :=
  match v with
  | JNull => false
  | JBool b => b
  | JInt z => negb (bool_decide (z = 0))
  | JStr s => negb (bool_decide (s = ""))
  | JList l => negb (bool_decide (l = []))
  | JObj m => negb (bool_decide (m = ∅))
  end.

(** The dataclasses annotate their fields ([str], [Optional[str]],
    [Dict[str, Any]]) and the records above follow the annotations.
    Python does not check them: a document holding, say, a number where
    a name is expected would be stored as it is.  Such documents are
    outside the typed records and reported as [Unsupported]. *)
Definition as_str (v : json) : result string :=
  match v with
  | JStr s => Ok s
  | _ => Raise Unsupported
  end.

Definition as_optional_str (v : json) : result (option string) :=
  match v with
  | JNull => Ok None
  | JStr s => Ok (Some s)
  | _ => Raise Unsupported
  end.

Definition as_dict (v : json) : result (gmap string json) :=
  match v with
  | JObj m => Ok m
  | _ => Raise Unsupported
  end.

Definition optional_str_json (o : option string) : json :=
  match o with
  | Some s => JStr s
  | None => JNull
  end.

Definition team_to_dict (team : Team.t) : json :=
  JObj {[ "name" := JStr (Team.name team);
          "location" := JStr (Team.location team);
          "inspiration" := JStr (Team.inspiration team);
          "notes" := optional_str_json (Team.notes team) ]}.

Definition division_to_dict (division : Division.t) : json :=
  JObj {[ "level" := JInt (Division.level division);
          "name" := JStr (Division.name division);
          "short_name" := optional_str_json (Division.short_name division);
          "teams" := JList (team_to_dict <$> Division.teams division) ]}.

Definition dict_to_team (team_data : json) : result Team.t :=
  result_bind (subscript team_data "name") (λ name_v,
  result_bind (dict_get team_data "location" (JStr "")) (λ location_v,
  result_bind (dict_get team_data "inspiration" (JStr "")) (λ inspiration_v,
  result_bind (dict_get team_data "notes" JNull) (λ notes_v,
  result_bind (as_str name_v) (λ name,
  result_bind (as_str location_v) (λ location,
  result_bind (as_str inspiration_v) (λ inspiration,
  result_bind (as_optional_str notes_v) (λ notes,
  Ok (Team.mk name location inspiration notes))))))))).

Section serializer.
Variable D : DatetimeLib.
(** The builtin [int] applied to a [str]; [None] when it raises. *)
Variable int_of_str : string → option Z.

Definition pyramid_to_dict (pyramid : Pyramid.t (datetime D)) : gmap string json :=
  {[ "title" := JStr (Pyramid.title pyramid);
     "description" := JStr (Pyramid.description pyramid);
     "generated_at" :=
       match Pyramid.generated_at pyramid with
       | Some d => JStr (isoformat D d)
       | None => JNull
       end;
     "meta" := JObj (Pyramid.meta pyramid);
     "divisions" := JList (division_to_dict <$> Pyramid.divisions pyramid) ]}.

(** [int(v)] *)
Definition int (v : json) : result Z :=
  match v with
  | JInt z => Ok z
  | JBool b => Ok (Z.b2z b)
  | JStr s =>
      match int_of_str s with
      | Some z => Ok z
      | None => Raise (ValueError "invalid literal for int() with base 10")
      end
  | JNull | JList _ | JObj _ => Raise TypeError
  end.

Definition dict_to_division (division_data : json) : result Division.t :=
  result_bind (dict_get division_data "teams" (JList [])) (λ teams_v,
  result_bind (iterate teams_v) (λ teams_data,
  result_bind (result_mapM dict_to_team teams_data) (λ teams,
  result_bind (subscript division_data "level") (λ level_v,
  result_bind (int level_v) (λ level,
  result_bind (subscript division_data "name") (λ name_v,
  result_bind (dict_get division_data "short_name" JNull) (λ short_name_v,
  result_bind (as_str name_v) (λ name,
  result_bind (as_optional_str short_name_v) (λ short_name,
  Ok (Division.mk level name short_name teams)))))))))).

(** [datetime.fromisoformat(v)] *)
Definition parse_generated_at (v : json) : result (option (datetime D)) :=
  if truthy v then
    match v with
    | JStr s =>
        match fromisoformat D s with
        | Some d => Ok (Some d)
        | None => Raise (ValueError "Invalid isoformat string")
        end
    | _ => Raise TypeError
    end
  else Ok None.

Definition dict_to_pyramid (data : gmap string json)
    : result (Pyramid.t (datetime D)) :=
  result_bind (iterate (default (JList []) (data !! "divisions"))) (λ divisions_data,
  result_bind (result_mapM dict_to_division divisions_data) (λ divisions,
  result_bind (parse_generated_at (default JNull (data !! "generated_at")))
    (λ generated_at,
  result_bind (as_str (default (JStr "Unnamed Pyramid") (data !! "title"))) (λ title,
  result_bind (as_str (default (JStr "") (data !! "description"))) (λ description,
  result_bind (as_dict (default (JObj ∅) (data !! "meta"))) (λ meta,
  Ok (sort (Pyramid.mk title description divisions meta generated_at)))))))).
End serializer.

(** ** io.py: files *)

(** Exceptions of the file and command-line layer, on top of those of
    the core. *)
Inductive io_exn :=
| PyError (e : exn)
| FileNotFoundError (msg : string)
| JSONDecodeError
| OSError
| SystemExit (msg : string).

Inductive io_result (A : Type) :=
| IoOk (a : A)
| IoRaise (e : io_exn)
| IoOutOfFuel.
Arguments IoOk {A} a.
Arguments IoRaise {A} e.
Arguments IoOutOfFuel {A}.

Definition io_of_result {A} (r : result A) : io_result A :=
  match r with
  | Ok a => IoOk a
  | Raise e => IoRaise (PyError e)
  | OutOfFuel => IoOutOfFuel
  end.

(** [pathlib.Path] and the files behind it: [path_of] is [Path(text)],
    [path_str] is [str(path)]; [read_text] and [write_text] give [None]
    when the operating system refuses.  What was written to a path is
    there to be read. *)
Record OsLib := {
  Path : Type;
  path_of : string → Path;
  path_str : Path → string;
  suffix : Path → string;
  files : Type;
  path_exists : Path → files → bool;
  read_text : Path → files → option string;
  write_text : Path → string → files → option files;
  read_after_write p text fs fs' :
    write_text p text fs = Some fs' →
    path_exists p fs' = true ∧ read_text p fs' = Some text;
}.

(** [json.dumps(value, indent=2, ensure_ascii=False)] and [json.loads];
    a dumped value, with or without the final newline [save_pyramid]
    adds, loads as itself. *)
Record JsonLib := {
  dumps : json → string;
  loads : string → option json;
  loads_dumps v : loads (dumps v +:+ String "010"%char "") = Some v;
}.

(** [str(value)] on a value of [meta] and [textwrap.indent], as the
    preview uses them. *)
Record ConsoleLib := {
  str_value : json → string;
  indent : string → string → string;
}.

(** ** cli.py: parsed arguments *)

Module GenerateArgs.
Record t := mk {
  output : string;
  levels : list Z;
  theme : string;
  title : option string;
  description : option string;
  seed : option Z;
  division_names : option (list string);
  preview : bool;
}.
End GenerateArgs.

Module ResampleArgs.
Record t := mk {
  source : string;
  output : option string;
  levels : option (list Z);
  theme : option string;
  seed : option Z;
  division_names : option (list string);
  title : option string;
  description : option string;
  preview : bool;
}.
End ResampleArgs.

Module ShowArgs.
Record t := mk {
  source : string;
  no_teams : bool;
}.
End ShowArgs.

(** [text.rjust(width)] *)
Definition rjust (width : nat) (text : string) : string :=
  String.concat "" (replicate (width - String.length text) " ") +:+ text.

(** [f"{index:>2}. {team_name} — {location} ({inspiration})"] *)
Definition _format_team_line (index : Z) (team_name inspiration location : string)
    : string :=
  rjust 2 (pretty index) +:+ ". " +:+ team_name +:+ " — " +:+ location
  +:+ " (" +:+ inspiration +:+ ")".

Section files_and_commands.
Variable R : RandomLib.
Variable D : DatetimeLib.
Variable OS : OsLib.
Variable J : JsonLib.
Variable C : ConsoleLib.
Variable int_of_str : string → option Z.

(** The files and what has been printed, one entry per call of [print]. *)
Record world := World {
  fs : files OS;
  stdout : list string;
}.

Definition IO (A : Type) : Type := world → io_result (A * world).

Definition io_ret {A} (a : A) : IO A := λ w, IoOk (a, w).

Definition io_bind {A B} (m : IO A) (k : A → IO B) : IO B := λ w,
  match m w with
  | IoOk (a, w') => k a w'
  | IoRaise e => IoRaise e
  | IoOutOfFuel => IoOutOfFuel
  end.

Definition io_lift {A} (r : result A) : IO A := λ w,
  match io_of_result r with
  | IoOk a => IoOk (a, w)
  | IoRaise e => IoRaise e
  | IoOutOfFuel => IoOutOfFuel
  end.

Definition io_raise {A} (e : io_exn) : IO A := λ _, IoRaise e.

Notation "'let*' x ':=' m 'in' k" := (io_bind m (λ x, k))
  (at level 10, x name, m at level 100, k at level 200, only parsing).

(** [print(text)] *)
Definition print (text : string) : IO unit := λ w,
  IoOk (tt, World (fs w) (stdout w ++ [text])).

(** [Path(path)] for [path : str | Path] *)
Definition as_path (path : string + Path OS) : Path OS :=
  match path with
  | inl text => path_of OS text
  | inr p => p
  end.

(** [save_pyramid].  The suffix is compared in lower case; [lower]
    handles the ASCII range, outside of which no character is lowered
    to one of [.json]. *)
Definition save_pyramid (pyramid : Pyramid.t (datetime D)) (path : string + Path OS)
    : IO (Path OS) := λ w,
  let target := as_path path in
  if decide (lower (suffix OS target) ≠ ".json") then
    IoRaise (PyError
      (ValueError "The app currently writes JSON. Use a .json file extension."))
  else
    let payload := pyramid_to_dict D pyramid in
    match write_text OS target (dumps J (JObj payload) +:+ String "010"%char "")
            (fs w) with
    | Some fs' => IoOk (target, World fs' (stdout w))
    | None => IoRaise OSError
    end.

Definition load_pyramid (path : string + Path OS) : IO (Pyramid.t (datetime D)) := λ w,
  let source := as_path path in
  if negb (path_exists OS source (fs w)) then
    IoRaise (FileNotFoundError ("Pyramid file not found: " +:+ path_str OS source))
  else
    match read_text OS source (fs w) with
    | None => IoRaise OSError
    | Some text =>
        match loads J text with
        | None => IoRaise JSONDecodeError
        | Some (JObj data) => io_lift (dict_to_pyramid D int_of_str data) w
        | Some _ => IoRaise (PyError AttributeError)
        end
    end.

(** ** cli.py: commands *)

Definition meta_info (meta : gmap string json) : list (string * option json) :=
  [ ("Theme", meta !! "theme"); ("Levels", meta !! "levels"); ("Seed", meta !! "seed") ].

(** The entries of [meta_info] whose value is not [None] *)
Definition filtered (info : list (string * option json)) : list (string * json) :=
  omap (λ kv, match kv.2 with
              | Some JNull | None => None
              | Some v => Some (kv.1, v)
              end) info.

Definition division_header (division : Division.t) : string :=
  let header :=
    "Level " +:+ pretty (Division.level division) +:+ ": " +:+ Division.name division in
  match Division.short_name division with
  | Some short_name =>
      if decide (short_name = "") then header
      else header +:+ " (" +:+ short_name +:+ ")"
  | None => header
  end.

Definition team_lines (teams : list Team.t) : list string :=
  imap (λ idx team,
          _format_team_line (Z.of_nat idx + 1) (Team.name team)
            (Team.inspiration team) (Team.location team)) teams.

(** What [_print_pyramid] prints, one entry per call of [print]. *)
Definition _print_pyramid (pyramid : Pyramid.t (datetime D)) (show_teams : bool)
    : list string :=
  [Pyramid.title pyramid]
  ++ (if decide (Pyramid.description pyramid = "") then []
      else [Pyramid.description pyramid])
  ++ (if decide (Pyramid.meta pyramid = ∅) then []
      else
        match filtered (meta_info (Pyramid.meta pyramid)) with
        | [] => []
        | entries =>
            "Meta:"
            :: ((λ kv, "  " +:+ kv.1 +:+ ": " +:+ str_value C kv.2) <$> entries)
        end)
  ++ match Pyramid.generated_at pyramid with
     | Some d => ["Generated at: " +:+ isoformat D d +:+ " UTC"]
     | None => []
     end
  ++ [""]
  ++ (division ← list_sort Z.le Division.level (Pyramid.divisions pyramid);
      [division_header division]
      ++ (if show_teams then
            match team_lines (Division.teams division) with
            | [] => []
            | lines => [indent C (join (String "010"%char "") lines) "  "]
            end
          else [])
      ++ [""]).

Definition print_all (texts : list string) : IO unit := λ w,
  IoOk (tt, World (fs w) (stdout w ++ texts)).

(** [_generate_from_args]; [randint] is what [random.randint(1, 999999)]
    returns when it is asked. *)
Definition _generate_from_args (fuel : nat) (now : datetime D)
    (os_entropy : entropy R) (randint : Z) (args : GenerateArgs.t)
    : result (Pyramid.t (datetime D) * Z) :=
  let seed := match GenerateArgs.seed args with
              | Some seed => seed
              | None => randint
              end in
  result_bind
    (generate_pyramid R fuel now os_entropy (GenerateArgs.levels args)
       (GenerateArgs.theme args) (Some seed) (GenerateArgs.title args)
       (GenerateArgs.description args) (GenerateArgs.division_names args) None)
    (λ pyramid, Ok (pyramid, seed)).

Definition _handle_generate (fuel : nat) (now : datetime D)
    (os_entropy : entropy R) (randint : Z) (args : GenerateArgs.t) : IO unit :=
  let* ps := io_lift (_generate_from_args fuel now os_entropy randint args) in
  if GenerateArgs.preview args then
    let* _ := print_all (_print_pyramid ps.1 true) in
    print ("(Preview generated with seed " +:+ pretty ps.2 +:+ ")")
  else
    let output_path := path_of OS (GenerateArgs.output args) in
    let* _ := save_pyramid ps.1 (inr output_path) in
    print ("Saved new pyramid to " +:+ path_str OS output_path
           +:+ " (seed=" +:+ pretty ps.2 +:+ ")").

(** A value of [meta] used as the [level_sizes] argument.  The typed
    generator takes a list of integers; other values are reported as
    [Unsupported]. *)
Definition as_level_sizes (v : json) : result (list Z) :=
  match v with
  | JList l =>
      result_mapM (λ x, match x with
                        | JInt n => Ok n
                        | _ => Raise Unsupported
                        end) l
  | _ => Raise Unsupported
  end.

(** A value of [meta] used as the [custom_division_names] argument. *)
Definition as_division_names (v : option json) : result (option (list string)) :=
  match v with
  | None | Some JNull => Ok None
  | Some (JList l) => result_map Some (result_mapM as_str l)
  | Some _ => Raise Unsupported
  end.

Definition _handle_resample (fuel : nat) (now : datetime D)
    (os_entropy : entropy R) (randint : Z) (args : ResampleArgs.t) : IO unit :=
  let source := path_of OS (ResampleArgs.source args) in
  let* pyramid := load_pyramid (inr source) in
  let meta := Pyramid.meta pyramid in
  let theme : json :=
    match ResampleArgs.theme args with
    | Some t => if decide (t = "") then default (JStr "eorzea") (meta !! "theme")
                else JStr t
    | None => default (JStr "eorzea") (meta !! "theme")
    end in
  let levels : option json :=
    if truthy_seq (ResampleArgs.levels args)
    then Some (JList (JInt <$> default [] (ResampleArgs.levels args)))
    else meta !! "levels" in
  if negb (truthy (default JNull levels)) then
    io_raise (SystemExit
      "The template pyramid does not contain level metadata. Provide --levels explicitly.")
  else
    let seed := match ResampleArgs.seed args with
                | Some seed => seed
                | None => randint
                end in
    let division_names : option json :=
      if truthy_seq (ResampleArgs.division_names args)
      then Some (JList (JStr <$> default [] (ResampleArgs.division_names args)))
      else meta !! "custom_division_names" in
    let title := str_or (ResampleArgs.title args) (Pyramid.title pyramid) in
    let description :=
      str_or (ResampleArgs.description args) (Pyramid.description pyramid) in
    let* regenerated :=
      io_lift
        (match theme with
         | JStr theme =>
             result_bind (get_theme theme) (λ _,
             result_bind (as_level_sizes (default JNull levels)) (λ level_sizes,
             result_bind (as_division_names division_names) (λ custom_division_names,
             generate_pyramid R fuel now os_entropy level_sizes theme (Some seed)
               (Some title) (Some description) custom_division_names
               (Some {[ "resampled_from" := JStr (path_str OS source) ]}))))
         | _ => Raise AttributeError
         end) in
    if ResampleArgs.preview args then
      let* _ := print_all (_print_pyramid regenerated true) in
      print ("(Preview generated with seed " +:+ pretty seed +:+ ")")
    else
      let target :=
        match ResampleArgs.output args with
        | Some output => if decide (output = "") then source else path_of OS output
        | None => source
        end in
      let* _ := save_pyramid regenerated (inr target) in
      print ("Saved regenerated pyramid to " +:+ path_str OS target
             +:+ " (seed=" +:+ pretty seed +:+ ")").

End files_and_commands.

(** ** Vocabulary of the properties *)

(** Every name [_build_team] can come up with: a base name made of a
    location and a mascot, with or without an adjective, either bare or
    followed by one of the extra suffixes. *)
Definition base_names (theme : Theme.t) : list string :=
  location ← Theme.locations theme;
  mascot ← Theme.mascots theme;
  (location +:+ " " +:+ mascot)
    :: ((λ adjective, location +:+ " " +:+ adjective +:+ " " +:+ mascot)
          <$> Theme.adjectives theme).

Definition candidate_names (theme : Theme.t) : list string :=
  base_name ← base_names theme;
  base_name :: ((λ suffix, base_name +:+ " " +:+ suffix) <$> _EXTRA_TEAM_SUFFIXES).

(** All team names of a list of divisions, in order. *)
Definition team_names (ds : list Division.t) : list string :=
  d ← ds; Team.name <$> Division.teams d.

(** Requested number of teams: [range(n)] is empty for [n <= 0]. *)
Definition total_teams (level_sizes : list Z) : nat :=
  foldr (λ n acc, (Z.to_nat n + acc)%nat) 0%nat level_sizes.

(** [names] were added one by one to the set [used], each new when it
    was added, giving [used']. *)
Definition fresh_run (used : gset string) (names : list string)
    (used' : gset string) : Prop :=
  NoDup names ∧ (∀ x, x ∈ names → x ∉ used) ∧ used' = list_to_set names ∪ used.

(** The invariants of [model.py]. *)
Definition levels_non_decreasing {datetime} (p : Pyramid.t datetime) : Prop :=
  StronglySorted Z.le (Division.level <$> Pyramid.divisions p).

Definition levels_strictly_ascending {datetime} (p : Pyramid.t datetime) : Prop :=
  StronglySorted Z.lt (Division.level <$> Pyramid.divisions p).

Definition teams_ordered {datetime} (p : Pyramid.t datetime) : Prop :=
  Forall (λ d, StronglySorted String.le (Team.name <$> Division.teams d))
    (Pyramid.divisions p).

(** What [_build_team] needs of a theme: something to choose from in
    every list, and note templates that [format] accepts. *)
Definition theme_ok (theme : Theme.t) : Prop :=
  Theme.locations theme ≠ [] ∧ Theme.mascots theme ≠ [] ∧
  Theme.adjectives theme ≠ [] ∧ Theme.inspirations theme ≠ [] ∧
  Theme.notes_templates theme ≠ [] ∧
  Forall (λ template, ∀ inspiration location,
            is_Ok (format template {[ "inspiration" := inspiration;
                                      "location" := location ]}))
    (Theme.notes_templates theme).

(** The name the naming rule gives to level [level]. *)
Definition default_division_name (theme : Theme.t) (level : Z) : string :=
  if bool_decide (level = 1) then Theme.premier_title theme
  else if bool_decide (level = 2) then Theme.championship_title theme
  else Theme.region_name theme +:+ " " +:+ Theme.lower_division_title theme
       +:+ " " +:+ _roman (level - 2).

(** A team put together from the vocabulary of [theme], the way
    [_build_team] does it. *)
Definition team_from_theme (theme : Theme.t) (team : Team.t) : Prop :=
  Team.location team ∈ Theme.locations theme ∧
  Team.inspiration team ∈ Theme.inspirations theme ∧
  (∃ mascot adjective base_name,
     mascot ∈ Theme.mascots theme ∧ adjective ∈ Theme.adjectives theme ∧
     (base_name = Team.location team +:+ " " +:+ mascot ∨
      base_name = Team.location team +:+ " " +:+ adjective +:+ " " +:+ mascot) ∧
     (Team.name team = base_name ∨
      ∃ suffix, suffix ∈ _EXTRA_TEAM_SUFFIXES ∧
                Team.name team = base_name +:+ " " +:+ suffix)) ∧
  (∃ template notes,
     template ∈ Theme.notes_templates theme ∧
     format template {[ "inspiration" := Team.inspiration team;
                        "location" := Team.location team ]} = Ok notes ∧
     Team.notes team = Some notes).

(** The number a Roman numeral stands for: a letter counts negative
    when a letter of larger value follows it. *)
Definition roman_digit (c : ascii) : Z :=
  if decide (c = "I"%char) then 1
  else if decide (c = "V"%char) then 5
  else if decide (c = "X"%char) then 10
  else if decide (c = "L"%char) then 50
  else if decide (c = "C"%char) then 100
  else if decide (c = "D"%char) then 500
  else if decide (c = "M"%char) then 1000
  else 0.

Fixpoint roman_value (s : string) : Z :=
  match s with
  | EmptyString => 0
  | String c s' =>
      match s' with
      | EmptyString => roman_digit c
      | String c' _ =>
          if bool_decide (roman_digit c < roman_digit c')
          then roman_value s' - roman_digit c
          else roman_digit c + roman_value s'
      end
  end.

(** An empty sequence of custom names counts as none. *)
Definition given_names (custom : option (list string)) : option (list string) :=
  if truthy_seq custom then custom else None.

(** ** Sample instances of the runtime interfaces

    Used to run the embedding on concrete inputs. *)

Module Sample.
(** A linear congruential generator over [Z]. *)
Definition lcg_next (s : Z) : Z := (s * 1103515245 + 12345) mod 2147483648.

Definition lcg_randbelow (n : nat) (s : Z) : nat * Z :=
  (Z.to_nat (lcg_next s mod Z.of_nat n), lcg_next s).

Lemma lcg_randbelow_lt n s : (0 < n)%nat → ((lcg_randbelow n s).1 < n)%nat.
Proof.
  intros Hn. unfold lcg_randbelow. simpl.
  pose proof (Z.mod_pos_bound (lcg_next s) (Z.of_nat n)). lia.
Qed.

Definition lcg : RandomLib :=
  {| rng := Z;
     entropy := Z;
     seed_int := λ a, Z.abs a;
     seed_os := λ e, Z.abs e;
     randbelow := lcg_randbelow;
     random53 := λ s, (lcg_next s * 4194304, lcg_next s);
     randbelow_lt := lcg_randbelow_lt |}.

(** Datetimes kept as the text after the leading year digit. *)
Definition iso_of (d : string) : string := String "2"%char d.

Definition iso_parse (s : string) : option string :=
  match s with
  | String "2"%char d => Some d
  | _ => None
  end.

Lemma iso_parse_of d : iso_parse (iso_of d) = Some d.
Proof. reflexivity. Qed.

Lemma iso_of_nonempty d : iso_of d ≠ "".
Proof. discriminate. Qed.

Definition clock : DatetimeLib :=
  {| datetime := string;
     isoformat := iso_of;
     fromisoformat := iso_parse;
     fromisoformat_isoformat := iso_parse_of;
     isoformat_nonempty := iso_of_nonempty |}.

(** A decimal reader for [int] on unsigned digit strings. *)
Fixpoint digits_value (acc : Z) (s : string) : option Z :=
  match s with
  | EmptyString => Some acc
  | String c s' =>
      if is_digit c
      then digits_value (acc * 10 + Z.of_nat (Ascii.nat_of_ascii c) - 48) s'
      else None
  end.

Definition int_of_digits (s : string) : option Z :=
  match s with
  | EmptyString => None
  | _ => digits_value 0 s
  end.

(** A call of [generate_pyramid] with the sample generator, ten
    iterations per loop, a fixed clock reading and fixed entropy. *)
Definition generate (level_sizes : list Z) (theme : string) (seed : option Z)
    (title description : option string) (custom_division_names : option (list string))
    (extra_meta : option (gmap string json)) : result (Pyramid.t string) :=
  generate_pyramid lcg 10 "026-11-03T00:00:00" 5 level_sizes theme seed
    title description custom_division_names extra_meta.

(** The value of a call that returns. *)
Definition returned (r : result (Pyramid.t string)) : Pyramid.t string :=
  match r with
  | Ok p => p
  | _ => Pyramid.mk "" "" [] ∅ None
  end.

Definition pyramid_a : Pyramid.t string :=
  returned (generate [1; 2] "eorzea" (Some 42) None None None None).

Definition pyramid_b : Pyramid.t string :=
  returned (generate [1] "far-east" (Some 7) (Some "") (Some "") None None).

Definition pyramid_c : Pyramid.t string :=
  returned (generate [1; 0; 1] "eorzea" (Some 3) None None (Some ["Top Flight"])
              (Some {[ "seed" := JStr "kept" ]})).

(** A document whose two divisions both claim level 1. *)
Definition document_two_tops : gmap string json :=
  {[ "title" := JStr "Two tops";
     "divisions" :=
       JList [ JObj {[ "level" := JInt 1; "name" := JStr "North";
                       "teams" := JList [ JObj {[ "name" := JStr "Zadnor Legati" ]};
                                          JObj {[ "name" := JStr "Bozja Magitek" ]} ] ]};
               JObj {[ "level" := JInt 1; "name" := JStr "South" ]} ] ]}.

Definition two_tops : Pyramid.t string :=
  Pyramid.mk "Two tops" ""
    [ Division.mk 1 "North" None
        [ Team.mk "Bozja Magitek" "" "" None; Team.mk "Zadnor Legati" "" "" None ];
      Division.mk 1 "South" None [] ]
    ∅ None.
(** A document with a division that lacks its level. *)
Definition document_no_level : gmap string json :=
  {[ "divisions" :=
       JList ([ JObj {[ "level" := JInt 2; "name" := JStr "South" ]} ]
              ++ JObj {[ "name" := JStr "North" ]}
              :: [ JStr "never read" ]) ]}.
(** A JSON library for running the embedding: values are written as the
    binary digits of their code as a tree, not in JSON syntax. *)
Definition leaf : Type := bool + Z + string.

Definition pair_tree (kv : string * gen_tree leaf) : gen_tree leaf :=
  GenNode 3 [GenLeaf (inr kv.1); kv.2].

Definition tree_pair (f : gen_tree leaf → json) (t : gen_tree leaf)
    : option (string * json) :=
  match t with
  | GenNode 3 [GenLeaf (inr k); t'] => Some (k, f t')
  | _ => None
  end.

Fixpoint to_tree (v : json) : gen_tree leaf :=
  match v with
  | JNull => GenNode 0 []
  | JBool b => GenLeaf (inl (inl b))
  | JInt z => GenLeaf (inl (inr z))
  | JStr s => GenLeaf (inr s)
  | JList l => GenNode 1 (to_tree <$> l)
  | JObj m => GenNode 2 (pair_tree <$> map_to_list (to_tree <$> m))
  end.

Fixpoint of_tree (t : gen_tree leaf) : json :=
  match t with
  | GenLeaf (inl (inl b)) => JBool b
  | GenLeaf (inl (inr z)) => JInt z
  | GenLeaf (inr s) => JStr s
  | GenNode 1 ts => JList (of_tree <$> ts)
  | GenNode 2 ts => JObj (list_to_map (omap (tree_pair of_tree) ts))
  | GenNode _ _ => JNull
  end.

Fixpoint json_size (v : json) : nat :=
  match v with
  | JList l => S (sum_list (json_size <$> l))
  | JObj m => S (map_fold (λ _ v acc, (json_size v + acc)%nat) 0%nat m)
  | _ => 1
  end.

Lemma json_size_elem (x : json) (l : list json) :
  x ∈ l → (json_size x ≤ sum_list (json_size <$> l))%nat.
Proof.
  induction 1 as [x l|x y l _ IH]; rewrite fmap_cons; simpl; lia.
Qed.

Lemma json_size_lookup (m : gmap string json) k x :
  m !! k = Some x →
  (json_size x ≤ map_fold (λ _ v acc, (json_size v + acc)%nat) 0%nat m)%nat.
Proof.
  intros Hx%elem_of_map_to_list. rewrite map_fold_foldr. revert Hx.
  generalize (map_to_list m). intros l.
  induction l as [|[k' x'] l IH]; intros Hx; [by apply elem_of_nil in Hx|].
  cbn [foldr uncurry fst snd].
  apply elem_of_cons in Hx as [[= <- <-]|Hx]; [lia|]. specialize (IH Hx). lia.
Qed.

Lemma of_to_tree (v : json) : of_tree (to_tree v) = v.
Proof.
  remember (json_size v) as n eqn:Hn. revert v Hn.
  induction (lt_wf n) as [n _ IH]. intros v ->.
  destruct v as [| | | |l|m]; try done.
  - cbn [to_tree of_tree]. f_equal. rewrite <-list_fmap_compose.
    rewrite <-(list_fmap_id l) at 2. apply Forall_fmap_ext_1, list.Forall_forall.
    intros x Hx. cbn. apply (IH (json_size x)); [|done].
    apply json_size_elem in Hx. cbn [json_size]. lia.
  - cbn [to_tree of_tree]. f_equal.
    assert (∀ l, omap (tree_pair of_tree) (pair_tree <$> l)
                 = prod_map id of_tree <$> l) as ->.
    { intros l. induction l as [|[k t] l IHl]; [done|].
      rewrite !fmap_cons. cbn [omap list_omap]. cbn. by rewrite <-IHl. }
    rewrite list_to_map_fmap, list_to_map_to_list, <-map_fmap_compose.
    apply map_eq. intros k. rewrite lookup_fmap.
    destruct (m !! k) as [x|] eqn:Hk; [|done]. cbn. f_equal.
    apply (IH (json_size x)); [|done].
    apply json_size_lookup in Hk. cbn [json_size]. lia.
Qed.

Fixpoint to_bits (p : positive) : string :=
  match p with
  | xH => ""
  | xO p => String "0" (to_bits p)
  | xI p => String "1" (to_bits p)
  end.

Fixpoint of_bits (s : string) : positive :=
  match s with
  | String "0" s' => xO (of_bits s')
  | String "1" s' => xI (of_bits s')
  | _ => xH
  end.

Lemma of_to_bits p : of_bits (to_bits p +:+ String "010" "") = p.
Proof. induction p as [p IH|p IH|]; simpl; [by rewrite IH..|done]. Qed.

Definition bits_dumps (v : json) : string := to_bits (encode (to_tree v)).

Definition bits_loads (s : string) : option json :=
  of_tree <$> decode (of_bits s).

Lemma bits_loads_dumps v : bits_loads (bits_dumps v +:+ String "010" "") = Some v.
Proof.
  unfold bits_loads, bits_dumps.
  by rewrite of_to_bits, decode_encode; cbn; rewrite of_to_tree.
Qed.

Definition bits : JsonLib :=
  {| dumps := bits_dumps; loads := bits_loads; loads_dumps := bits_loads_dumps |}.

(** Files as a table from path texts to contents; every write succeeds. *)
Fixpoint last_suffix (name : string) : string :=
  match name with
  | EmptyString => ""
  | String c name' =>
      match last_suffix name' with
      | EmptyString => if decide (c = "."%char) then name else ""
      | found => found
      end
  end.

Lemma table_read_after_write (p text : string) (fs fs' : gmap string string) :
  Some (<[p:=text]> fs) = Some fs' →
  bool_decide (is_Some (fs' !! p)) = true ∧ fs' !! p = Some text.
Proof.
  intros [= <-]. rewrite lookup_insert_eq. split; [|done].
  by apply bool_decide_eq_true_2.
Qed.

Definition table : OsLib :=
  {| Path := string;
     path_of := id;
     path_str := id;
     suffix := last_suffix;
     files := gmap string string;
     path_exists := λ p fs, bool_decide (is_Some (fs !! p));
     read_text := λ p fs, fs !! p;
     write_text := λ p text fs, Some (<[p:=text]> fs);
     read_after_write := table_read_after_write |}.

Definition console : ConsoleLib :=
  {| str_value := λ v, match v with
                       | JStr s => s
                       | JInt z => pretty z
                       | _ => "..."
                       end;
     indent := λ text prefix, prefix +:+ text |}.

Definition empty_world : world table := World table ∅ [].

(** The world a command that returns leaves behind. *)
Definition world_of {A} (r : io_result (A * world table)) : world table :=
  match r with
  | IoOk (_, w) => w
  | _ => empty_world
  end.

Definition saved_b : world table :=
  world_of (save_pyramid clock table bits pyramid_b (inl "b.JSON") empty_world).

Definition saved_two_tops : world table :=
  world_of (save_pyramid clock table bits two_tops (inl "tops.json") empty_world).

Definition later : string := "026-11-04T12:00:00".

Definition resample_b (preview : bool) : ResampleArgs.t :=
  ResampleArgs.mk "b.JSON" (Some "again.json") None None (Some 7) None None None preview.

Definition resampled_b (preview : bool) : world table :=
  world_of (_handle_resample lcg clock table bits console int_of_digits
              10 later 5 123456 (resample_b preview) saved_b).

Definition resample_two_tops : ResampleArgs.t :=
  ResampleArgs.mk "tops.json" None None None None None None None false.

Definition generate_new (preview : bool) : GenerateArgs.t :=
  GenerateArgs.mk "new.json" [1] "garlemald" None None None None preview.

Definition generated_new : world table :=
  world_of (_handle_generate lcg clock table bits console
              10 later 5 123456 (generate_new false) empty_world).
End Sample.

(** * Properties *)

(** ** The embedding on concrete inputs *)

Example roman_examples :
  _roman 1 = "I" ∧ _roman 4 = "IV" ∧ _roman 0 = "I" ∧ _roman 14 = "XIV".
Proof. repeat split; vm_compute; reflexivity. Qed.

Example get_theme_examples :
  get_theme "Far-East" = Ok theme_far_east ∧
  get_theme "nope" =
    Raise (KeyError "Unknown theme 'nope'. Available themes: eorzea, far_east, garlemald").
Proof. split; vm_compute; reflexivity. Qed.

Example format_examples :
  format "Backed by the {inspiration} from {location}."
    {[ "inspiration" := "Maelstrom"; "location" := "Kugane" ]}
    = Ok "Backed by the Maelstrom from Kugane." ∧
  format "{{x}} {y}" {[ "x" := "1" ]} = Raise (KeyError "y") ∧
  format "a } b" ∅ = Raise (ValueError "Single '}' encountered in format string").
Proof. repeat split; vm_compute; reflexivity. Qed.

(** ** The stable sort *)

Section list_sort_facts.
Context {A K : Type} (R : relation K) `{!RelDecision R} (key : A → K).

Lemma sort_insert_Permutation x l : sort_insert R key x l ≡ₚ x :: l.
Proof.
  induction l as [|y l IH]; simpl; [done|].
  case_decide; [done|]. rewrite IH. apply Permutation_swap.
Qed.

Lemma list_sort_Permutation l : list_sort R key l ≡ₚ l.
Proof.
  induction l as [|x l IH]; simpl; [done|].
  by rewrite sort_insert_Permutation, IH.
Qed.

Lemma list_sort_length l : length (list_sort R key l) = length l.
Proof. by rewrite list_sort_Permutation. Qed.

Lemma elem_of_list_sort x l : x ∈ list_sort R key l ↔ x ∈ l.
Proof. by rewrite list_sort_Permutation. Qed.

Lemma sort_insert_sorted `{!Transitive R, !Total R} x l :
  key_sorted R key l → key_sorted R key (sort_insert R key x l).
Proof.
  unfold key_sorted. induction l as [|y l IH]; simpl; intros Hl.
  - repeat constructor.
  - apply StronglySorted_inv in Hl as [Hl Hy]. case_decide as Hxy.
    + simpl. constructor; [by constructor|].
      constructor; [done|]. eapply Forall_impl; [exact Hy|].
      intros z Hz. by transitivity (key y).
    + constructor; [by apply IH|].
      assert (R (key y) (key x)) as Hyx by (by destruct (total R (key x) (key y))).
      rewrite sort_insert_Permutation. simpl. by constructor.
Qed.

Lemma list_sort_sorted `{!Transitive R, !Total R} l :
  key_sorted R key (list_sort R key l).
Proof.
  induction l as [|x l IH]; simpl; [constructor|].
  by apply sort_insert_sorted.
Qed.

(** A list that is already in order is left as it is. *)
Lemma list_sort_id l : key_sorted R key l → list_sort R key l = l.
Proof.
  unfold key_sorted. induction l as [|x l IH]; simpl; [done|].
  intros [Hl Hx]%StronglySorted_inv. rewrite IH by done.
  destruct l as [|y l]; simpl; [done|].
  apply Forall_cons in Hx as [Hxy _]. by rewrite decide_True.
Qed.
End list_sort_facts.

Lemma sorted_NoDup_lt (l : list Z) :
  StronglySorted Z.le l → NoDup l → StronglySorted Z.lt l.
Proof.
  induction 1 as [|x l Hl IH Hx]; intros Hnd; [constructor|].
  apply NoDup_cons in Hnd as [Hxl Hnd]. constructor; [by apply IH|].
  apply Forall_forall. intros y Hy.
  rewrite Forall_forall in Hx. specialize (Hx y Hy).
  assert (x ≠ y) by (intros ->; done). lia.
Qed.

Lemma sort_levels {datetime} (p : Pyramid.t datetime) :
  Division.level <$> Pyramid.divisions (sort p)
  = Division.level <$> list_sort Z.le Division.level (Pyramid.divisions p).
Proof. simpl. rewrite <-list_fmap_compose. by apply list_fmap_ext. Qed.

Lemma sort_levels_non_decreasing {datetime} (p : Pyramid.t datetime) :
  levels_non_decreasing (sort p).
Proof.
  unfold levels_non_decreasing. rewrite sort_levels.
  apply (list_sort_sorted Z.le Division.level).
Qed.

Lemma sort_teams_ordered {datetime} (p : Pyramid.t datetime) :
  teams_ordered (sort p).
Proof.
  unfold teams_ordered. simpl. apply Forall_fmap, Forall_forall.
  intros d _. simpl. apply (list_sort_sorted String.le Team.name).
Qed.

(** ** The generator *)

Lemma fresh_run_nil used : fresh_run used [] used.
Proof. split; [constructor|]. split; set_solver. Qed.

Lemma fresh_run_app used names1 used1 names2 used2 :
  fresh_run used names1 used1 → fresh_run used1 names2 used2 →
  fresh_run used (names1 ++ names2) used2.
Proof.
  intros (Hnd1 & Hf1 & ->) (Hnd2 & Hf2 & ->). split; [|split].
  - apply NoDup_app. split; [done|]. split; [|done].
    intros x Hx1 Hx2. apply (Hf2 x Hx2). set_solver.
  - intros x [Hx|Hx]%elem_of_app; [by apply Hf1|].
    specialize (Hf2 x Hx). set_solver.
  - rewrite list_to_set_app_L. set_solver.
Qed.

Lemma length_bind_const {A B} (f : A → list B) (k : nat) (l : list A) :
  (∀ x, length (f x) = k) → length (l ≫= f) = (length l * k)%nat.
Proof.
  intros Hf. induction l as [|x l IH]; [done|].
  rewrite bind_cons, length_app, Hf, IH. simpl. lia.
Qed.

Lemma length_candidate_names theme :
  length (candidate_names theme)
  = (length (Theme.locations theme)
     * (length (Theme.mascots theme) * S (length (Theme.adjectives theme)))
     * S (length _EXTRA_TEAM_SUFFIXES))%nat.
Proof.
  unfold candidate_names, base_names.
  rewrite (length_bind_const _ (S (length _EXTRA_TEAM_SUFFIXES))).
  2:{ intros b. by rewrite length_cons, length_fmap. }
  f_equal.
  apply length_bind_const. intros location.
  apply length_bind_const. intros mascot. by rewrite length_cons, length_fmap.
Qed.

Section generator_facts.
Variable R : RandomLib.
Implicit Types (st : gen_state R) (theme : Theme.t).

Lemma gen_bind_Ok {A B} (m : M R A) (k : A → M R B) st b st' :
  gen_bind R m k st = Ok (b, st') ↔
  ∃ a st1, m st = Ok (a, st1) ∧ k a st1 = Ok (b, st').
Proof.
  unfold gen_bind. split.
  - destruct (m st) as [[a st1]| |]; [|done..]. eauto.
  - intros (a & st1 & -> & Hk). done.
Qed.

Lemma gen_ret_Ok {A} (a b : A) st st' :
  gen_ret R a st = Ok (b, st') ↔ a = b ∧ st = st'.
Proof. unfold gen_ret. naive_solver. Qed.

Lemma gen_lift_Ok {A} (r : result A) st a st' :
  gen_lift R r st = Ok (a, st') ↔ r = Ok a ∧ st = st'.
Proof. unfold gen_lift. destruct r; simpl; naive_solver. Qed.

Lemma choice_Ok {A} (seq : list A) st x st' :
  choice R seq st = Ok (x, st') → x ∈ seq ∧ used_names R st' = used_names R st.
Proof.
  unfold choice. destruct seq as [|y seq]; [done|].
  destruct (_ !! _) as [z|] eqn:Hz; [|done].
  intros [= <- <-]. split; [|done]. by eapply list_elem_of_lookup_2.
Qed.

Lemma choice_total {A} (seq : list A) st :
  seq ≠ [] → ∃ x st', choice R seq st = Ok (x, st').
Proof.
  intros Hseq. unfold choice. destruct seq as [|y seq]; [done|].
  destruct (lookup_lt_is_Some_2 (y :: seq)
              (randbelow R (length (y :: seq)) (st_rng R st)).1) as [z Hz].
  { apply randbelow_lt. simpl. lia. }
  rewrite Hz. eauto.
Qed.

Lemma random_Ok st r st' :
  random R st = Ok (r, st') → used_names R st' = used_names R st.
Proof. unfold random. by intros [= <- <-]. Qed.

(** *** The collision loop *)

Lemma while_name_used_Ok fuel base_name name st name' st' :
  while_name_used R fuel base_name name st = Ok (name', st') →
  (name' ∉ used_names R st) ∧ used_names R st' = used_names R st ∧
  (name' = name ∨
   ∃ suffix, suffix ∈ _EXTRA_TEAM_SUFFIXES ∧ name' = base_name +:+ " " +:+ suffix).
Proof.
  revert name st. induction fuel as [|fuel IH]; intros name st; simpl.
  - case_decide; [done|]. intros [= <- <-]. auto.
  - case_decide; [|intros [= <- <-]; auto].
    intros (suffix & st1 & [Hs Hu]%choice_Ok & Hw)%gen_bind_Ok.
    apply IH in Hw as (Hn & Hu' & Hw). rewrite Hu in Hn, Hu'.
    split; [done|]. split; [done|]. right.
    destruct Hw as [->|Hw]; [eauto|done].
Qed.

Lemma build_team_Ok fuel theme st team st' :
  _build_team R fuel theme st = Ok (team, st') →
  Team.name team ∈ candidate_names theme ∧
  fresh_run (used_names R st) [Team.name team] (used_names R st').
Proof.
  unfold _build_team.
  intros (location & st1 & [Hl Hu1]%choice_Ok & H)%gen_bind_Ok.
  apply gen_bind_Ok in H as (mascot & st2 & [Hm Hu2]%choice_Ok & H).
  apply gen_bind_Ok in H as (adjective & st3 & [Ha Hu3]%choice_Ok & H).
  apply gen_bind_Ok in H as (r & st4 & Hu4%random_Ok & H).
  apply gen_bind_Ok in H as (name & st5 & Hw & H).
  apply while_name_used_Ok in Hw as (Hfresh & Hu5 & Hname).
  apply gen_bind_Ok in H as ([] & st6 & Hadd & H).
  unfold add_used_name in Hadd. injection Hadd as <-.
  apply gen_bind_Ok in H as (inspiration & st7 & [Hi Hu7]%choice_Ok & H).
  apply gen_bind_Ok in H as (template & st8 & [Ht Hu8]%choice_Ok & H).
  apply gen_bind_Ok in H as (notes & st9 & [_ <-]%gen_lift_Ok & H).
  apply gen_ret_Ok in H as [<- <-]. simpl in *.
  rewrite Hu8, Hu7. simpl. rewrite Hu5, Hu4, Hu3, Hu2, Hu1 in *.
  split.
  - set (base := if bool_decide (r < float_0_55) then _ else _) in *.
    assert (base ∈ base_names theme) as Hbase.
    { unfold base_names. apply list_elem_of_bind. exists location. split; [|done].
      apply list_elem_of_bind. exists mascot. split; [|done].
      subst base. case_bool_decide; [by left|].
      right. apply list_elem_of_fmap. eauto. }
    unfold candidate_names. apply list_elem_of_bind. exists base. split; [|done].
    destruct Hname as [->|(suffix & Hs & ->)]; [by left|].
    right. apply list_elem_of_fmap. eauto.
  - split; [apply NoDup_singleton|]. split; [|set_solver].
    by intros x ->%list_elem_of_singleton.
Qed.

(** *** Names handed out by the loops *)

Lemma repeatM_build_team_Ok fuel theme n st teams st' :
  repeatM R n (_build_team R fuel theme) st = Ok (teams, st') →
  length teams = n ∧
  Forall (λ name, name ∈ candidate_names theme) (Team.name <$> teams) ∧
  fresh_run (used_names R st) (Team.name <$> teams) (used_names R st').
Proof.
  revert st teams st'. induction n as [|n IH]; intros st teams st'; simpl.
  - intros [<- <-]%gen_ret_Ok. split; [done|]. split; [constructor|].
    apply fresh_run_nil.
  - intros (team & st1 & [Hc Hf]%build_team_Ok & H)%gen_bind_Ok.
    apply gen_bind_Ok in H as (teams' & st2 & (Hlen & Hcs & Hfs)%IH & H).
    apply gen_ret_Ok in H as [<- <-]. rewrite fmap_cons.
    split; [simpl; by rewrite Hlen|]. split; [by constructor|].
    by apply (fresh_run_app _ [_] _ _ _ Hf).
Qed.

Lemma build_divisions_Ok fuel theme total custom idx sizes st ds st' :
  build_divisions R fuel theme total custom idx sizes st = Ok (ds, st') →
  Division.level <$> ds = seqZ idx (Z.of_nat (length sizes)) ∧
  Forall (λ d,
    _division_name theme (Division.level d) total custom = Ok (Division.name d) ∧
    Division.short_name d = Some (_short_name theme (Division.level d))) ds ∧
  Forall2 (λ d n, length (Division.teams d) = Z.to_nat n) ds sizes ∧
  Forall (λ name, name ∈ candidate_names theme) (team_names ds) ∧
  fresh_run (used_names R st) (team_names ds) (used_names R st').
Proof.
  revert idx st ds st'. induction sizes as [|n sizes IH]; intros idx st ds st'.
  - intros [<- <-]%gen_ret_Ok.
    split; [done|]. do 3 (split; [constructor|]). apply fresh_run_nil.
  - cbn [build_divisions].
    intros (d & st1 & Hd & H)%gen_bind_Ok.
    apply gen_bind_Ok in H as (ds' & st2 & (Hlv & Hnm & Hsz & Hcs & Hfs)%IH & H).
    apply gen_ret_Ok in H as [<- <-].
    unfold _build_division in Hd.
    apply gen_bind_Ok in Hd as (name & st3 & [Hname <-]%gen_lift_Ok & Hd).
    apply gen_bind_Ok in Hd as (teams & st4 & (Hlen & Hc & Hf)%repeatM_build_team_Ok & Hd).
    apply gen_ret_Ok in Hd as [<- <-].
    split; [|split; [|split; [|split]]].
    + rewrite fmap_cons, Hlv. cbn [Division.level length].
      rewrite (seqZ_cons idx) by lia. f_equal. f_equal; lia.
    + by constructor.
    + by constructor.
    + unfold team_names. rewrite bind_cons. apply Forall_app. by split.
    + unfold team_names. rewrite bind_cons.
      by apply (fresh_run_app _ _ _ _ _ Hf).
Qed.

Lemma length_team_names ds sizes :
  Forall2 (λ d n, length (Division.teams d) = Z.to_nat n) ds sizes →
  length (team_names ds) = total_teams sizes.
Proof.
  unfold team_names. induction 1 as [|d n ds sizes Hd _ IH]; [done|].
  rewrite bind_cons, length_app, length_fmap, Hd, IH. done.
Qed.

(** *** What a successful call of [generate_pyramid] went through *)

Lemma seqZ_sorted (m : Z) (n : nat) : StronglySorted Z.le (seqZ m (Z.of_nat n)).
Proof.
  revert m. induction n as [|n IH]; intros m; [constructor|].
  rewrite seqZ_cons by lia. constructor.
  - replace (Z.pred (Z.of_nat (S n))) with (Z.of_nat n) by lia. apply IH.
  - apply Forall_seqZ. lia.
Qed.

Lemma generate_pyramid_Ok {datetime} fuel (now : datetime) os_entropy level_sizes
    (theme : string) seed title description custom_division_names extra_meta p :
  generate_pyramid R fuel now os_entropy level_sizes theme seed title description
    custom_division_names extra_meta = Ok p →
  ∃ theme_obj ds st',
    level_sizes ≠ [] ∧
    get_theme theme = Ok theme_obj ∧
    build_divisions R fuel theme_obj (Z.of_nat (length level_sizes))
      custom_division_names 1 level_sizes (GenState R (Random R seed os_entropy) ∅)
      = Ok (ds, st') ∧
    p = Pyramid.mk
          (str_or title (Theme.region_name theme_obj +:+ " Football Pyramid"))
          (str_or description (Theme.highlight theme_obj))
          (sort_teams <$> ds)
          (build_meta theme_obj seed level_sizes custom_division_names extra_meta)
          (Some now).
Proof.
  unfold generate_pyramid. destruct level_sizes as [|n sizes]; [done|].
  destruct (get_theme theme) as [theme_obj| |]; [|done..]. cbn [result_bind].
  destruct (build_divisions _ _ _ _ _ _ _ _) as [[ds st']| |] eqn:Hb; [|done..].
  cbn [result_bind]. intros [= <-]. exists theme_obj, ds, st'.
  do 3 (split; [done|]). unfold sort. cbn [Pyramid.divisions fst]. f_equal.
  f_equal. apply list_sort_id. unfold key_sorted.
  apply build_divisions_Ok in Hb as [-> _]. apply seqZ_sorted.
Qed.

Lemma team_names_sort_teams ds : team_names (sort_teams <$> ds) ≡ₚ team_names ds.
Proof.
  unfold team_names. induction ds as [|d ds IH]; [done|].
  rewrite fmap_cons, !bind_cons, IH. apply Permutation_app_tail.
  cbn [sort_teams Division.teams]. by rewrite list_sort_Permutation.
Qed.

Lemma sort_teams_level d : Division.level (sort_teams d) = Division.level d.
Proof. done. Qed.

Lemma sort_teams_name d : Division.name (sort_teams d) = Division.name d.
Proof. done. Qed.

(** *** The iteration budget does not influence a result *)

Lemma fuel_mono_const {A} (m : M R A) : fuel_mono (λ _, m).
Proof. by intros fuel fuel' st r _ H. Qed.

Lemma fuel_mono_bind {A B} (m : nat → M R A) (k : nat → A → M R B) :
  fuel_mono m → (∀ a, fuel_mono (λ fuel, k fuel a)) →
  fuel_mono (λ fuel, gen_bind R (m fuel) (k fuel)).
Proof.
  intros Hm Hk fuel fuel' st [b st'] Hle (a & st1 & H1 & H2)%gen_bind_Ok.
  apply gen_bind_Ok. exists a, st1. split.
  - by apply (Hm fuel).
  - by apply (Hk a fuel).
Qed.

Lemma while_name_used_mono base_name name :
  fuel_mono (λ fuel, while_name_used R fuel base_name name).
Proof.
  intros fuel. revert name.
  induction fuel as [|fuel IH]; intros name fuel' st r Hle; simpl.
  - case_decide; [done|]. intros <-. destruct fuel'; simpl; by rewrite decide_False.
  - destruct fuel' as [|fuel']; [lia|]. simpl. case_decide; [|done].
    destruct r as [name' st']. intros (suffix & st1 & Hc & Hw)%gen_bind_Ok.
    apply gen_bind_Ok. exists suffix, st1. split; [done|].
    apply (IH _ fuel'); [lia|done].
Qed.

Lemma build_team_mono theme : fuel_mono (λ fuel, _build_team R fuel theme).
Proof.
  unfold _build_team.
  do 4 (apply fuel_mono_bind; [apply fuel_mono_const|intros ?]).
  apply fuel_mono_bind; [apply while_name_used_mono|intros ?].
  apply fuel_mono_const.
Qed.

Lemma repeatM_mono {A} (m : nat → M R A) n :
  fuel_mono m → fuel_mono (λ fuel, repeatM R n (m fuel)).
Proof.
  intros Hm. induction n as [|n IH]; simpl; [apply fuel_mono_const|].
  apply fuel_mono_bind; [done|intros x].
  apply fuel_mono_bind; [done|intros xs]. apply fuel_mono_const.
Qed.

Lemma build_divisions_mono theme total custom idx sizes :
  fuel_mono (λ fuel, build_divisions R fuel theme total custom idx sizes).
Proof.
  revert idx. induction sizes as [|n sizes IH]; intros idx; simpl.
  - apply fuel_mono_const.
  - apply fuel_mono_bind.
    + unfold _build_division.
      apply fuel_mono_bind; [apply fuel_mono_const|intros name].
      apply fuel_mono_bind; [|intros teams; apply fuel_mono_const].
      apply repeatM_mono, build_team_mono.
    + intros d. apply fuel_mono_bind; [apply IH|intros ds].
      apply fuel_mono_const.
Qed.

Lemma build_divisions_fuel_irrelevant theme total custom idx sizes fuel1 fuel2 st r1 r2 :
  build_divisions R fuel1 theme total custom idx sizes st = Ok r1 →
  build_divisions R fuel2 theme total custom idx sizes st = Ok r2 →
  r1 = r2.
Proof.
  intros H1 H2.
  apply (build_divisions_mono _ _ _ _ _ fuel1 (fuel1 `max` fuel2)%nat) in H1; [|lia].
  apply (build_divisions_mono _ _ _ _ _ fuel2 (fuel1 `max` fuel2)%nat) in H2; [|lia].
  congruence.
Qed.

(** *** Calls that cannot raise *)

Lemma while_name_used_no_raise fuel base_name name st e :
  while_name_used R fuel base_name name st ≠ Raise e.
Proof.
  revert name st. induction fuel as [|fuel IH]; intros name st; simpl.
  - by case_decide.
  - case_decide; [|done]. unfold gen_bind.
    destruct (choice_total _EXTRA_TEAM_SUFFIXES st) as (suffix & st1 & ->); [done|].
    apply IH.
Qed.

Lemma build_team_no_raise fuel theme st e :
  theme_ok theme → _build_team R fuel theme st ≠ Raise e.
Proof.
  intros (Hl & Hm & Ha & Hi & Ht & Hfmt). unfold _build_team, gen_bind.
  destruct (choice_total _ st Hl) as (location & st1 & ->).
  destruct (choice_total _ st1 Hm) as (mascot & st2 & ->).
  destruct (choice_total _ st2 Ha) as (adjective & st3 & ->).
  unfold random at 1. cbn beta iota.
  destruct (while_name_used _ _ _ _ _) as [[name st5]|e'|] eqn:Hw; [| |done].
  2:{ by apply while_name_used_no_raise in Hw. }
  unfold add_used_name at 1. cbn beta iota.
  destruct (choice_total _ {| st_rng := st_rng R st5;
                              used_names := {[name]} ∪ used_names R st5 |} Hi)
    as (inspiration & st7 & ->).
  destruct (choice_total _ st7 Ht) as (template & st8 & Hc). rewrite Hc.
  apply choice_Ok in Hc as [Hc _]. rewrite Forall_forall in Hfmt.
  destruct (Hfmt _ Hc inspiration location) as [notes ->]. done.
Qed.

Lemma repeatM_build_team_no_raise fuel theme n st e :
  theme_ok theme → repeatM R n (_build_team R fuel theme) st ≠ Raise e.
Proof.
  intros Hok. revert st. induction n as [|n IH]; intros st; simpl; [done|].
  unfold gen_bind at 1.
  destruct (_build_team _ _ _ _) as [[team st1]|e'|] eqn:Hb; [| |done].
  2:{ by apply build_team_no_raise in Hb. }
  unfold gen_bind at 1. specialize (IH st1).
  by destruct (repeatM _ _ _ _) as [[teams st2]|e'|].
Qed.

Lemma division_name_total theme level total custom :
  1 ≤ level → ∃ name, _division_name theme level total custom = Ok name.
Proof.
  intros Hlevel. unfold _division_name.
  destruct (truthy_seq custom && _) eqn:Hc.
  - apply andb_prop in Hc as [_ Hlen%bool_decide_eq_true].
    unfold getitem. cbv zeta.
    rewrite (bool_decide_eq_false_2 (level - 1 < 0)) by lia.
    rewrite bool_decide_eq_true_2 by lia.
    destruct (lookup_lt_is_Some_2 (default [] custom) (Z.to_nat (level - 1)))
      as [name ->]; [lia|eauto].
  - repeat case_bool_decide; eauto.
Qed.

Lemma build_divisions_no_raise fuel theme total custom idx sizes st e :
  theme_ok theme → 1 ≤ idx →
  build_divisions R fuel theme total custom idx sizes st ≠ Raise e.
Proof.
  intros Hok. revert idx st.
  induction sizes as [|n sizes IH]; intros idx st Hidx; simpl; [done|].
  unfold gen_bind at 1, _build_division.
  destruct (division_name_total theme idx total custom Hidx) as [name Hname].
  unfold gen_bind at 1. rewrite Hname. cbn beta iota delta [gen_lift result_map result_bind].
  unfold gen_bind at 1.
  destruct (repeatM _ _ _ _) as [[teams st1]|e'|] eqn:Hr; [| |done].
  2:{ by apply repeatM_build_team_no_raise in Hr. }
  cbn beta iota delta [gen_ret]. unfold gen_bind at 1.
  specialize (IH (idx + 1) st1 ltac:(lia)).
  by destruct (build_divisions _ _ _ _ _ _ _ _) as [[ds st2]|e'|].
Qed.

(** *** More teams than names *)

Lemma build_divisions_bound fuel theme total custom idx sizes st ds st' :
  used_names R st = ∅ →
  build_divisions R fuel theme total custom idx sizes st = Ok (ds, st') →
  (total_teams sizes ≤ length (candidate_names theme))%nat.
Proof.
  intros Hst (_ & _ & Hsz & Hcs & Hnd & _)%build_divisions_Ok.
  rewrite <-(length_team_names ds) by done.
  apply submseteq_length, NoDup_submseteq; [done|].
  by apply Forall_forall.
Qed.
End generator_facts.

(** ** The theme table *)

Lemma get_theme_Ok key theme :
  get_theme key = Ok theme →
  theme ∈ [theme_eorzea; theme_far_east; theme_garlemald].
Proof.
  unfold get_theme.
  destruct (THEMES !! _) as [t|] eqn:Hlookup; [|done]. intros [= <-].
  apply elem_of_list_to_map_2 in Hlookup.
  apply (list_elem_of_fmap_2 snd) in Hlookup. exact Hlookup.
Qed.

Lemma format_note_ok template inspiration location :
  template ∈ Theme.notes_templates theme_eorzea ++ Theme.notes_templates theme_far_east
             ++ Theme.notes_templates theme_garlemald →
  is_Ok (format template {[ "inspiration" := inspiration; "location" := location ]}).
Proof.
  intros Hin. cbn [Theme.notes_templates theme_eorzea theme_far_east
                     theme_garlemald app] in Hin.
  repeat (apply elem_of_cons in Hin as [->|Hin];
          [eexists; vm_compute; reflexivity|]).
  by apply elem_of_nil in Hin.
Qed.

Lemma known_theme_ok theme :
  theme ∈ [theme_eorzea; theme_far_east; theme_garlemald] → theme_ok theme.
Proof.
  intros Hin.
  assert (∀ template, template ∈ Theme.notes_templates theme →
            template ∈ Theme.notes_templates theme_eorzea
                       ++ Theme.notes_templates theme_far_east
                       ++ Theme.notes_templates theme_garlemald) as Hsub.
  { intros template. rewrite !elem_of_app.
    repeat (apply elem_of_cons in Hin as [->|Hin]; [tauto|]).
    by apply elem_of_nil in Hin. }
  split_and!; [..|apply Forall_forall; intros; by apply format_note_ok, Hsub];
    (repeat (apply elem_of_cons in Hin as [->|Hin]; [done|]);
     by apply elem_of_nil in Hin).
Qed.

Lemma get_theme_ok key theme : get_theme key = Ok theme → theme_ok theme.
Proof. intros H. by apply known_theme_ok, (get_theme_Ok key). Qed.

(** ** Division names *)

Lemma division_name_spec theme level total custom name :
  1 ≤ level →
  _division_name theme level total custom = Ok name →
  name = default (default_division_name theme level)
           (default [] custom !! Z.to_nat (level - 1)).
Proof.
  intros Hlevel. unfold _division_name.
  destruct (truthy_seq custom && _) eqn:Hc.
  - apply andb_prop in Hc as [_ Hlen%bool_decide_eq_true].
    unfold getitem. cbv zeta.
    rewrite (bool_decide_eq_false_2 (level - 1 < 0)) by lia.
    rewrite bool_decide_eq_true_2 by lia.
    destruct (_ !! _) as [c|]; [|done]. by intros [= <-].
  - assert (default [] custom !! Z.to_nat (level - 1) = None) as ->.
    { apply lookup_ge_None. apply andb_false_iff in Hc as [Hc|Hc].
      - destruct custom as [[|c cs]|]; simpl in *; try done; lia.
      - apply bool_decide_eq_false in Hc. lia. }
    unfold default_division_name. simpl.
    repeat case_bool_decide; by intros [= <-].
Qed.

(** ** Roman numerals *)

(** The inner loop of [_roman] leaves through its test, never because
    the iteration budget [remaining] ran out. *)
Lemma roman_while_exit (fuel : nat) value numeral (st : list string * Z) :
  1 ≤ value → st.2 ≤ Z.of_nat fuel →
  (roman_while fuel value numeral st).2 < value.
Proof.
  intros Hvalue. revert st. induction fuel as [|fuel IH]; intros st Hst; simpl.
  - lia.
  - case_bool_decide; [|lia]. apply IH. simpl. lia.
Qed.

(** C8: the Roman-numeral conversion gives [roman(1) = "I"],
    [roman(4) = "IV"], [roman(9) = "IX"], [roman(40) = "XL"] and
    [roman(1994) = "MCMXCIV"]. *)
Theorem roman_known_values :
  _roman 1 = "I" ∧ _roman 4 = "IV" ∧ _roman 9 = "IX" ∧ _roman 40 = "XL" ∧
  _roman 1994 = "MCMXCIV".
Proof. repeat split; vm_compute; reflexivity. Qed.

(** ** Properties of [generate_pyramid] *)

(** C4: no two teams of a generated pyramid, in whatever divisions they
    play, have the same name. *)
Theorem generated_team_names_unique (R : RandomLib) {datetime} fuel (now : datetime)
    os_entropy level_sizes theme seed title description custom_division_names
    extra_meta p :
  generate_pyramid R fuel now os_entropy level_sizes theme seed title description
    custom_division_names extra_meta = Ok p →
  NoDup (team_names (Pyramid.divisions p)).
Proof.
  intros (theme_obj & ds & st' & _ & _ & Hb & ->)%generate_pyramid_Ok.
  cbn [Pyramid.divisions]. rewrite team_names_sort_teams.
  by apply build_divisions_Ok in Hb as (_ & _ & _ & _ & Hnd & _).
Qed.

Lemma generated_team_names_unique_witness :
  Sample.generate [1; 2] "eorzea" (Some 42) None None None None = Ok Sample.pyramid_a ∧
  NoDup (team_names (Pyramid.divisions Sample.pyramid_a)).
Proof.
  assert (Sample.generate [1; 2] "eorzea" (Some 42) None None None None
          = Ok Sample.pyramid_a) as Hgen by (vm_compute; reflexivity).
  split; [exact Hgen|]. exact (generated_team_names_unique _ _ _ _ _ _ _ _ _ _ _ _ Hgen).
Defined.

(** C1: with the level sizes, the theme, an integer seed and the custom
    division names fixed, two calls return pyramids with the same
    divisions (names, levels, teams, their order and notes) whatever the
    clock, the entropy of the operating system and the other arguments
    are; and with the title, description and extra meta arguments equal
    as well, the two pyramids differ in [generated_at] at most. *)
Theorem generate_pyramid_deterministic (R : RandomLib) {datetime}
    fuel1 fuel2 (now1 now2 : datetime) os_entropy1 os_entropy2
    level_sizes theme (seed : Z) custom_division_names
    title1 title2 description1 description2 extra_meta1 extra_meta2 p1 p2 :
  generate_pyramid R fuel1 now1 os_entropy1 level_sizes theme (Some seed)
    title1 description1 custom_division_names extra_meta1 = Ok p1 →
  generate_pyramid R fuel2 now2 os_entropy2 level_sizes theme (Some seed)
    title2 description2 custom_division_names extra_meta2 = Ok p2 →
  Pyramid.divisions p1 = Pyramid.divisions p2 ∧
  (title1 = title2 → Pyramid.title p1 = Pyramid.title p2) ∧
  (description1 = description2 → Pyramid.description p1 = Pyramid.description p2) ∧
  (extra_meta1 = extra_meta2 → Pyramid.meta p1 = Pyramid.meta p2).
Proof.
  intros (theme_obj1 & ds1 & st1 & _ & Ht1 & Hb1 & ->)%generate_pyramid_Ok.
  intros (theme_obj2 & ds2 & st2 & _ & Ht2 & Hb2 & ->)%generate_pyramid_Ok.
  rewrite Ht1 in Ht2. injection Ht2 as <-. cbn [Random] in Hb1, Hb2.
  pose proof (build_divisions_fuel_irrelevant _ _ _ _ _ _ _ _ _ _ _ Hb1 Hb2) as Heq.
  injection Heq as <- <-. cbn. repeat split; by intros <-.
Qed.

Lemma generate_pyramid_deterministic_witness :
  Pyramid.divisions Sample.pyramid_a
  = Pyramid.divisions
      (Sample.returned
         (generate_pyramid Sample.lcg 20 "026-12-24T18:30:00" 9 [1; 2] "eorzea"
            (Some 42) (Some "Winter Cup") None None None)) ∧
  Pyramid.description Sample.pyramid_a
  = Pyramid.description
      (Sample.returned
         (generate_pyramid Sample.lcg 20 "026-12-24T18:30:00" 9 [1; 2] "eorzea"
            (Some 42) (Some "Winter Cup") None None None)).
Proof.
  destruct (generate_pyramid_deterministic Sample.lcg 10 20 "026-11-03T00:00:00"
              "026-12-24T18:30:00" 5 9 [1; 2] "eorzea" 42 None None
              (Some "Winter Cup") None None None None Sample.pyramid_a
              (Sample.returned
                 (generate_pyramid Sample.lcg 20 "026-12-24T18:30:00" 9 [1; 2]
                    "eorzea" (Some 42) (Some "Winter Cup") None None None)))
    as (Hd & _ & Hdesc & _).
  - vm_compute. reflexivity.
  - vm_compute. reflexivity.
  - split; [exact Hd|exact (Hdesc eq_refl)].
Defined.

(** C10: an empty string given as title or description counts as no
    title or description: the call is the one with the argument left
    out, and the pyramid it returns is titled
    ["{region_name} Football Pyramid"], respectively described by the
    theme's highlight. *)
Theorem empty_title_description_default (R : RandomLib) {datetime} fuel
    (now : datetime) os_entropy level_sizes theme seed title description
    custom_division_names extra_meta :
  generate_pyramid R fuel now os_entropy level_sizes theme seed (Some "") description
    custom_division_names extra_meta
  = generate_pyramid R fuel now os_entropy level_sizes theme seed None description
      custom_division_names extra_meta ∧
  generate_pyramid R fuel now os_entropy level_sizes theme seed title (Some "")
    custom_division_names extra_meta
  = generate_pyramid R fuel now os_entropy level_sizes theme seed title None
      custom_division_names extra_meta ∧
  ∀ p,
    generate_pyramid R fuel now os_entropy level_sizes theme seed title description
      custom_division_names extra_meta = Ok p →
    ∃ theme_obj,
      get_theme theme = Ok theme_obj ∧
      (title = Some "" ∨ title = None →
       Pyramid.title p = Theme.region_name theme_obj +:+ " Football Pyramid") ∧
      (description = Some "" ∨ description = None →
       Pyramid.description p = Theme.highlight theme_obj).
Proof.
  split; [done|]. split; [done|].
  intros p (theme_obj & ds & st' & _ & Ht & _ & ->)%generate_pyramid_Ok.
  exists theme_obj. split; [done|]. cbn [Pyramid.title Pyramid.description].
  split; intros [->| ->]; done.
Qed.

Lemma empty_title_description_default_witness :
  Pyramid.title Sample.pyramid_b = "Far Eastern Football Pyramid" ∧
  Pyramid.description Sample.pyramid_b = Theme.highlight theme_far_east.
Proof.
  destruct (empty_title_description_default Sample.lcg 10 "026-11-03T00:00:00" 5
              [1] "far-east" (Some 7) (Some "") (Some "") None None)
    as (_ & _ & H).
  destruct (H Sample.pyramid_b) as (theme_obj & Ht & H1 & H2).
  - vm_compute. reflexivity.
  - vm_compute in Ht. injection Ht as <-. split; [apply H1|apply H2]; by left.
Defined.

Lemma build_divisions_no_teams (R : RandomLib) fuel theme total custom idx sizes st :
  1 ≤ idx → Forall (λ n, n ≤ 0) sizes →
  ∃ ds, build_divisions R fuel theme total custom idx sizes st = Ok (ds, st) ∧
        Forall (λ d, Division.teams d = []) ds.
Proof.
  intros Hidx Hsizes. revert idx Hidx.
  induction Hsizes as [|n sizes Hn _ IH]; intros idx Hidx; simpl.
  - exists []. by split.
  - destruct (division_name_total theme idx total custom Hidx) as [name Hname].
    destruct (IH (idx + 1) ltac:(lia)) as (ds & Hds & Hteams).
    exists (Division.mk idx name (Some (_short_name theme idx)) [] :: ds).
    split; [|by constructor].
    unfold gen_bind at 1, _build_division. unfold gen_bind at 1.
    rewrite Hname, Z2Nat.nonpos by done. cbn. unfold gen_bind at 1.
    by rewrite Hds.
Qed.




(** When more teams are asked for than the theme has names, no
    iteration budget lets the call return: the collision loop of some
    team finds its base name and all seven suffixed names in use. *)
Lemma generate_pyramid_exhausts (R : RandomLib) {datetime} fuel (now : datetime)
    os_entropy level_sizes theme theme_obj seed title description
    custom_division_names extra_meta :
  get_theme theme = Ok theme_obj →
  (length (candidate_names theme_obj) < total_teams level_sizes)%nat →
  generate_pyramid R fuel now os_entropy level_sizes theme seed title description
    custom_division_names extra_meta = OutOfFuel.
Proof.
  intros Htheme Hlt. unfold generate_pyramid.
  destruct level_sizes as [|n sizes]; [simpl in Hlt; lia|].
  rewrite Htheme. cbn [result_bind].
  destruct (build_divisions _ _ _ _ _ _ _ _) as [[ds st']|e|] eqn:Hb; [| |done].
  - apply build_divisions_bound in Hb; [lia|done].
  - apply build_divisions_no_raise in Hb; [done| |lia].
    by apply (get_theme_ok theme).
Qed.

(** C6 fails on the code: asked for 10297 teams of the [garlemald]
    theme, which has 13 * 11 * (1 + 8) * 8 = 10296 names, the call does
    not return under any iteration budget, with any generator and seed. *)
Theorem collision_loop_diverges (R : RandomLib) {datetime} fuel (now : datetime)
    os_entropy seed title description custom_division_names extra_meta :
  generate_pyramid R fuel now os_entropy [10297] "garlemald" seed title description
    custom_division_names extra_meta = OutOfFuel.
Proof.
  apply (generate_pyramid_exhausts R _ _ _ _ _ theme_garlemald); [done|].
  rewrite length_candidate_names. cbn [total_teams foldr].
  change (length (Theme.locations theme_garlemald)) with 13%nat.
  change (length (Theme.mascots theme_garlemald)) with 11%nat.
  change (length (Theme.adjectives theme_garlemald)) with 8%nat.
  change (length _EXTRA_TEAM_SUFFIXES) with 7%nat. lia.
Qed.

(** C7: the division at level [L] of a generated pyramid is named by the
    custom name given for position [L] when there is one, and otherwise
    by the premier title at level 1, the championship title at level 2
    and ["{region_name} {lower_division_title} {roman(L-2)}"] from level
    3 on, which at level 3 ends in ["I"].  The levels are 1, 2, ... in
    the order of [level_sizes]. *)
Theorem division_naming (R : RandomLib) {datetime} fuel (now : datetime)
    os_entropy level_sizes theme seed title description custom_division_names
    extra_meta p :
  generate_pyramid R fuel now os_entropy level_sizes theme seed title description
    custom_division_names extra_meta = Ok p →
  ∃ theme_obj,
    get_theme theme = Ok theme_obj ∧
    Division.level <$> Pyramid.divisions p
      = seqZ 1 (Z.of_nat (length level_sizes)) ∧
    ∀ d, d ∈ Pyramid.divisions p →
      let L := Division.level d in
      let supplied := default [] custom_division_names !! Z.to_nat (L - 1) in
      (∀ custom, supplied = Some custom → Division.name d = custom) ∧
      (supplied = None →
         (L = 1 → Division.name d = Theme.premier_title theme_obj) ∧
         (L = 2 → Division.name d = Theme.championship_title theme_obj) ∧
         (3 ≤ L →
          Division.name d
          = Theme.region_name theme_obj +:+ " "
            +:+ Theme.lower_division_title theme_obj +:+ " " +:+ _roman (L - 2)) ∧
         (L = 3 →
          Division.name d
          = Theme.region_name theme_obj +:+ " "
            +:+ Theme.lower_division_title theme_obj +:+ " I")).
Proof.
  intros (theme_obj & ds & st' & _ & Ht & Hb & ->)%generate_pyramid_Ok.
  exists theme_obj. split; [done|].
  apply build_divisions_Ok in Hb as (Hlv & Hnm & _).
  cbn [Pyramid.divisions]. split.
  { rewrite <-Hlv, <-list_fmap_compose. by apply list_fmap_ext. }
  intros d (d0 & -> & Hd0)%list_elem_of_fmap. cbn zeta.
  rewrite sort_teams_level, sort_teams_name.
  rewrite Forall_forall in Hnm. destruct (Hnm d0 Hd0) as [Hname _].
  assert (1 ≤ Division.level d0) as Hlevel.
  { assert (Division.level d0 ∈ Division.level <$> ds) as Hin
      by (apply list_elem_of_fmap; eauto).
    rewrite Hlv in Hin. apply elem_of_seqZ in Hin. lia. }
  apply division_name_spec in Hname; [|done].
  split.
  - intros custom Hc. by rewrite Hc in Hname.
  - intros Hc. rewrite Hc in Hname. cbn [default] in Hname.
    unfold default_division_name in Hname. rewrite Hname.
    split_and!; intros HL; repeat case_bool_decide; try lia; try done.
    by rewrite HL.
Qed.

Lemma division_naming_witness :
  Division.level <$> Pyramid.divisions Sample.pyramid_c = [1; 2; 3] ∧
  ∀ d, d ∈ Pyramid.divisions Sample.pyramid_c → Division.level d = 1 →
       Division.name d = "Top Flight".
Proof.
  destruct (division_naming Sample.lcg 10 "026-11-03T00:00:00" 5 [1; 0; 1]
              "eorzea" (Some 3) None None (Some ["Top Flight"])
              (Some {[ "seed" := JStr "kept" ]}) Sample.pyramid_c)
    as (theme_obj & _ & Hlv & Hnames).
  - vm_compute. reflexivity.
  - split; [exact Hlv|]. intros d Hd HL.
    destruct (Hnames d Hd) as [Hcustom _]. apply Hcustom. by rewrite HL.
Defined.

Lemma build_meta_union theme_obj seed level_sizes custom_division_names extra_meta :
  build_meta theme_obj seed level_sizes custom_division_names extra_meta
  = default ∅ extra_meta
    ∪ build_meta theme_obj seed level_sizes custom_division_names None.
Proof.
  unfold build_meta. destruct extra_meta as [extra|]; cbn [default].
  - case_decide as He; [|done]. rewrite He. symmetry. apply (left_id _ _).
  - symmetry. apply (left_id _ _).
Qed.

(** C9: the meta of a generated pyramid holds every entry of
    [extra_meta]; and, under each key that [extra_meta] does not set,
    the theme key, the seed ([None] when there is none), the level
    sizes, the short prefix, the provenance tag, and the custom division
    names when a non-empty sequence of them was given (no such entry
    otherwise). *)
Theorem meta_contents (R : RandomLib) {datetime} fuel (now : datetime)
    os_entropy level_sizes theme seed title description custom_division_names
    extra_meta p :
  generate_pyramid R fuel now os_entropy level_sizes theme seed title description
    custom_division_names extra_meta = Ok p →
  ∃ theme_obj,
    get_theme theme = Ok theme_obj ∧
    let extra : gmap string json := default ∅ extra_meta in
    let meta := Pyramid.meta p in
    (∀ k v, extra !! k = Some v → meta !! k = Some v) ∧
    (extra !! "theme" = None →
     meta !! "theme" = Some (JStr (Theme.key theme_obj))) ∧
    (extra !! "seed" = None →
     meta !! "seed" = Some (match seed with Some a => JInt a | None => JNull end)) ∧
    (extra !! "levels" = None →
     meta !! "levels" = Some (JList (JInt <$> level_sizes))) ∧
    (extra !! "short_prefix" = None →
     meta !! "short_prefix" = Some (JStr (Theme.short_prefix theme_obj))) ∧
    (extra !! "generated_using" = None →
     meta !! "generated_using" = Some (JStr "ffxiv_pyramid")) ∧
    (extra !! "custom_division_names" = None →
     meta !! "custom_division_names"
     = match custom_division_names with
       | Some (name :: names) => Some (JList (JStr <$> name :: names))
       | _ => None
       end).
Proof.
  intros (theme_obj & ds & st' & _ & Ht & _ & ->)%generate_pyramid_Ok.
  exists theme_obj. split; [done|]. cbn [Pyramid.meta]. cbv zeta.
  rewrite build_meta_union. split; [intros k v; apply lookup_union_Some_l|].
  split_and!; intros Hextra; rewrite (lookup_union_r _ _ _ Hextra);
    unfold build_meta, seed_json;
    destruct custom_division_names as [[|name names]|]; cbn [truthy_seq default];
    by simplify_map_eq.
Qed.

Lemma meta_contents_witness :
  Pyramid.meta Sample.pyramid_c !! "seed" = Some (JStr "kept") ∧
  Pyramid.meta Sample.pyramid_c !! "levels" = Some (JList [JInt 1; JInt 0; JInt 1]) ∧
  Pyramid.meta Sample.pyramid_c !! "custom_division_names"
  = Some (JList [JStr "Top Flight"]).
Proof.
  destruct (meta_contents Sample.lcg 10 "026-11-03T00:00:00" 5 [1; 0; 1]
              "eorzea" (Some 3) None None (Some ["Top Flight"])
              (Some {[ "seed" := JStr "kept" ]}) Sample.pyramid_c)
    as (theme_obj & _ & Hextra & _ & _ & Hlevels & _ & _ & Hcustom).
  - vm_compute. reflexivity.
  - split; [|split].
    + apply Hextra. vm_compute. reflexivity.
    + apply Hlevels. vm_compute. reflexivity.
    + apply Hcustom. vm_compute. reflexivity.
Defined.

(** ** The serialiser *)

Lemma result_bind_Ok {A B} (r : result A) (k : A → result B) b :
  result_bind r k = Ok b ↔ ∃ a, r = Ok a ∧ k a = Ok b.
Proof.
  unfold result_bind. split.
  - destruct r as [a| |]; [|done..]. eauto.
  - by intros (a & -> & Hk).
Qed.

Lemma result_mapM_fmap {A B} (f : A → B) (g : B → result A) (l : list A) :
  (∀ x, g (f x) = Ok x) → result_mapM g (f <$> l) = Ok l.
Proof.
  intros Hgf. induction l as [|x l IH]; [done|].
  rewrite fmap_cons. cbn [result_mapM]. by rewrite Hgf, IH.
Qed.

Lemma dict_to_team_to_dict team : dict_to_team (team_to_dict team) = Ok team.
Proof.
  destruct team as [name location inspiration [notes|]];
    unfold dict_to_team, team_to_dict, subscript, dict_get;
    cbn [Team.name Team.location Team.inspiration Team.notes optional_str_json];
    by simplify_map_eq.
Qed.

Section serializer_facts.
Variable D : DatetimeLib.
Variable int_of_str : string → option Z.

Lemma dict_to_division_to_dict division :
  dict_to_division int_of_str (division_to_dict division) = Ok division.
Proof.
  destruct division as [level name short_name teams].
  unfold dict_to_division, division_to_dict, subscript, dict_get.
  cbn [Division.level Division.name Division.short_name Division.teams].
  simplify_map_eq. cbn [default result_bind iterate].
  rewrite (result_mapM_fmap team_to_dict dict_to_team) by apply dict_to_team_to_dict.
  by destruct short_name.
Qed.

Lemma parse_generated_at_isoformat (generated_at : option (datetime D)) :
  parse_generated_at D
    (match generated_at with
     | Some d => JStr (isoformat D d)
     | None => JNull
     end) = Ok generated_at.
Proof.
  destruct generated_at as [d|]; [|done]. unfold parse_generated_at.
  cbn [truthy]. rewrite bool_decide_eq_false_2 by apply isoformat_nonempty.
  cbn [negb]. by rewrite fromisoformat_isoformat.
Qed.

Lemma dict_to_pyramid_Ok data p :
  dict_to_pyramid D int_of_str data = Ok p → ∃ p0, p = sort p0.
Proof.
  unfold dict_to_pyramid.
  intros (divisions_data & _ & H)%result_bind_Ok.
  apply result_bind_Ok in H as (divisions & _ & H).
  apply result_bind_Ok in H as (generated_at & _ & H).
  apply result_bind_Ok in H as (title & _ & H).
  apply result_bind_Ok in H as (description & _ & H).
  apply result_bind_Ok in H as (meta & _ & H).
  injection H as <-. eauto.
Qed.
End serializer_facts.

(** C3: reading back the document written for a pyramid gives the
    pyramid, sorted; this holds for every pyramid, whether or not its
    short names, notes and timestamp are present. *)
Theorem dict_to_pyramid_to_dict (D : DatetimeLib) (int_of_str : string → option Z)
    (p : Pyramid.t (datetime D)) :
  dict_to_pyramid D int_of_str (pyramid_to_dict D p) = Ok (sort p).
Proof.
  destruct p as [title description divisions meta generated_at].
  unfold dict_to_pyramid, pyramid_to_dict.
  cbn [Pyramid.title Pyramid.description Pyramid.divisions Pyramid.meta
         Pyramid.generated_at].
  simplify_map_eq. cbn [default iterate result_bind].
  rewrite (result_mapM_fmap division_to_dict (dict_to_division int_of_str))
    by apply dict_to_division_to_dict.
  cbn [result_bind]. rewrite parse_generated_at_isoformat. done.
Qed.

Example dict_to_pyramid_examples :
  dict_to_pyramid Sample.clock Sample.int_of_digits ∅
    = Ok (Pyramid.mk "Unnamed Pyramid" "" [] ∅ None) ∧
  dict_to_pyramid Sample.clock Sample.int_of_digits
    {[ "divisions" := JList [JObj {[ "name" := JStr "North" ]}] ]}
    = Raise (KeyError "level") ∧
  dict_to_pyramid Sample.clock Sample.int_of_digits
    {[ "divisions" := JList [JObj {[ "level" := JStr "12"; "name" := JStr "North" ]}] ]}
    = Ok (Pyramid.mk "Unnamed Pyramid" "" [Division.mk 12 "North" None []] ∅ None).
Proof. repeat split; vm_compute; reflexivity. Qed.

(** ** The ordering invariants *)

Lemma generated_levels_strictly_ascending (R : RandomLib) {datetime} fuel
    (now : datetime) os_entropy level_sizes theme seed title description
    custom_division_names extra_meta p :
  generate_pyramid R fuel now os_entropy level_sizes theme seed title description
    custom_division_names extra_meta = Ok p →
  levels_strictly_ascending p.
Proof.
  intros (theme_obj & ds & st' & _ & _ & Hb & ->)%generate_pyramid_Ok.
  apply build_divisions_Ok in Hb as (Hlv & _).
  unfold levels_strictly_ascending. cbn [Pyramid.divisions].
  rewrite <-list_fmap_compose.
  rewrite (list_fmap_ext (Division.level ∘ sort_teams) Division.level ds) by done.
  rewrite Hlv. apply sorted_NoDup_lt; [apply seqZ_sorted|apply NoDup_seqZ].
Qed.

Lemma generated_teams_ordered (R : RandomLib) {datetime} fuel
    (now : datetime) os_entropy level_sizes theme seed title description
    custom_division_names extra_meta p :
  generate_pyramid R fuel now os_entropy level_sizes theme seed title description
    custom_division_names extra_meta = Ok p →
  teams_ordered p.
Proof.
  intros (theme_obj & ds & st' & _ & _ & _ & ->)%generate_pyramid_Ok.
  unfold teams_ordered. cbn [Pyramid.divisions].
  apply Forall_fmap, Forall_forall. intros d _.
  apply (list_sort_sorted String.le Team.name).
Qed.

(** C5, as the code has it: in a pyramid returned by [generate_pyramid]
    the division levels are strictly ascending; in a pyramid returned by
    [dict_to_pyramid] they are in non-decreasing order, and strictly
    ascending when no two divisions have the same level; in both, the
    team names of each division are in non-decreasing lexicographic
    order. *)
Theorem sort_invariants (R : RandomLib) (D : DatetimeLib)
    (int_of_str : string → option Z) :
  (∀ fuel (now : datetime D) os_entropy level_sizes theme seed title description
     custom_division_names extra_meta p,
     generate_pyramid R fuel now os_entropy level_sizes theme seed title description
       custom_division_names extra_meta = Ok p →
     levels_strictly_ascending p ∧ teams_ordered p) ∧
  (∀ data p,
     dict_to_pyramid D int_of_str data = Ok p →
     levels_non_decreasing p ∧ teams_ordered p ∧
     (NoDup (Division.level <$> Pyramid.divisions p) → levels_strictly_ascending p)).
Proof.
  split.
  - intros * Hgen. split.
    + by eapply generated_levels_strictly_ascending.
    + by eapply generated_teams_ordered.
  - intros data p [p0 ->]%dict_to_pyramid_Ok.
    pose proof (sort_levels_non_decreasing p0) as Hlevels.
    split; [done|]. split; [apply sort_teams_ordered|].
    intros Hnd. by apply sorted_NoDup_lt.
Qed.

Lemma sort_invariants_witness :
  (levels_strictly_ascending Sample.pyramid_a ∧ teams_ordered Sample.pyramid_a) ∧
  (levels_non_decreasing Sample.two_tops ∧ teams_ordered Sample.two_tops).
Proof.
  destruct (sort_invariants Sample.lcg Sample.clock Sample.int_of_digits)
    as [Hgen Hload].
  split.
  - apply (Hgen 10%nat "026-11-03T00:00:00" 5 [1; 2] "eorzea" (Some 42)
             None None None None).
    vm_compute. reflexivity.
  - destruct (Hload Sample.document_two_tops Sample.two_tops) as (H1 & H2 & _).
    + vm_compute. reflexivity.
    + by split.
Defined.

(** C5 as stated fails for [dict_to_pyramid]: a document with two
    divisions of level 1 is read into a pyramid whose levels are not
    strictly ascending. *)
Lemma duplicate_levels_not_strictly_ascending :
  dict_to_pyramid Sample.clock Sample.int_of_digits Sample.document_two_tops
    = Ok Sample.two_tops ∧
  ¬ levels_strictly_ascending Sample.two_tops.
Proof.
  split; [vm_compute; reflexivity|].
  unfold levels_strictly_ascending. cbn.
  intros [_ Hlt]%StronglySorted_inv. apply Forall_cons in Hlt as [Hlt _]. lia.
Qed.


(** * Further properties *)

(** ** The theme registry *)

(** X1: a theme found by [get_theme] is registered under its own key,
    which is the given key in lower case with hyphens turned into
    underscores; looking that key up again gives the same theme. *)
Theorem get_theme_key key theme :
  get_theme key = Ok theme →
  Theme.key theme = replace_char "-" "_" (lower key) ∧
  get_theme (Theme.key theme) = Ok theme.
Proof.
  unfold get_theme at 1.
  destruct (THEMES !! _) as [t|] eqn:Hlookup; [|done]. intros [= <-].
  apply elem_of_list_to_map_2 in Hlookup.
  repeat (apply elem_of_cons in Hlookup as [Heq|Hlookup];
          [injection Heq as Hk ->; rewrite Hk;
           split; [reflexivity|vm_compute; reflexivity]|]).
  by apply elem_of_nil in Hlookup.
Qed.

Lemma get_theme_key_witness :
  Theme.key theme_far_east = replace_char "-" "_" (lower "Far-East") ∧
  get_theme (Theme.key theme_far_east) = Ok theme_far_east.
Proof. apply get_theme_key. vm_compute. reflexivity. Defined.

(** X2: [get_theme] either finds one of the three themes or raises a
    [KeyError] whose message quotes the key as it was given and lists
    the registered keys in alphabetical order. *)
Theorem get_theme_outcome key :
  (∃ theme, get_theme key = Ok theme ∧
            theme ∈ [theme_eorzea; theme_far_east; theme_garlemald]) ∨
  get_theme key
  = Raise (KeyError ("Unknown theme '" +:+ key
                     +:+ "'. Available themes: eorzea, far_east, garlemald")).
Proof.
  destruct (get_theme key) as [theme|e|] eqn:Hget.
  - left. exists theme. split; [done|]. by apply (get_theme_Ok key).
  - right. unfold get_theme in Hget.
    destruct (THEMES !! _); [done|]. by injection Hget as <-.
  - unfold get_theme in Hget. by destruct (THEMES !! _).
Qed.


(** ** Roman numerals below one *)

Lemma roman_fold_nonpositive (l : list (Z * string)) number :
  number ≤ 0 → foldl roman_step ([], number) l = ([], number).
Proof.
  intros Hn. induction l as [|vn l IH]; [done|].
  cbn [foldl]. unfold roman_step at 2. cbn [snd].
  rewrite Z2Nat.nonpos by done. cbn [roman_while]. exact IH.
Qed.

(** X3: for zero and for negative numbers no numeral is emitted and
    [_roman] falls back to ["I"]. *)
Theorem roman_nonpositive number : number ≤ 0 → _roman number = "I".
Proof. intros Hn. unfold _roman. by rewrite roman_fold_nonpositive. Qed.

Lemma roman_nonpositive_witness : _roman (-7) = "I".
Proof. apply roman_nonpositive. lia. Defined.

(** ** Teams and divisions of a generated pyramid *)

Section generated_teams.
Variable R : RandomLib.

Lemma build_team_from_theme fuel theme st team st' :
  _build_team R fuel theme st = Ok (team, st') → team_from_theme theme team.
Proof.
  unfold _build_team.
  intros (location & st1 & [Hl _]%choice_Ok & H)%gen_bind_Ok.
  apply gen_bind_Ok in H as (mascot & st2 & [Hm _]%choice_Ok & H).
  apply gen_bind_Ok in H as (adjective & st3 & [Ha _]%choice_Ok & H).
  apply gen_bind_Ok in H as (r & st4 & _ & H).
  apply gen_bind_Ok in H as (name & st5 & Hw & H).
  apply while_name_used_Ok in Hw as (_ & _ & Hname).
  apply gen_bind_Ok in H as ([] & st6 & _ & H).
  apply gen_bind_Ok in H as (inspiration & st7 & [Hi _]%choice_Ok & H).
  apply gen_bind_Ok in H as (template & st8 & [Ht _]%choice_Ok & H).
  apply gen_bind_Ok in H as (notes & st9 & [Hfmt _]%gen_lift_Ok & H).
  apply gen_ret_Ok in H as [<- _].
  unfold team_from_theme.
  cbn [Team.name Team.location Team.inspiration Team.notes].
  split; [done|]. split; [done|]. split; [|by exists template, notes].
  exists mascot, adjective. eexists. split; [done|]. split; [done|].
  split; [|exact Hname]. case_bool_decide; auto.
Qed.

Lemma repeatM_Forall {A} (P : A → Prop) (m : M R A) n st xs st' :
  (∀ st x st', m st = Ok (x, st') → P x) →
  repeatM R n m st = Ok (xs, st') → Forall P xs.
Proof.
  intros Hm. revert st xs st'.
  induction n as [|n IH]; intros st xs st'; simpl.
  - intros [<- _]%gen_ret_Ok. constructor.
  - intros (x & st1 & Hx & H)%gen_bind_Ok.
    apply gen_bind_Ok in H as (xs' & st2 & Hxs & H).
    apply gen_ret_Ok in H as [<- _]. constructor; [by eapply Hm|by eapply IH].
Qed.

Lemma build_divisions_teams fuel theme total custom idx sizes st ds st' :
  build_divisions R fuel theme total custom idx sizes st = Ok (ds, st') →
  Forall (λ d, Forall (team_from_theme theme) (Division.teams d)) ds.
Proof.
  revert idx st ds st'. induction sizes as [|n sizes IH]; intros idx st ds st'.
  - intros [<- _]%gen_ret_Ok. constructor.
  - cbn [build_divisions]. intros (d & st1 & Hd & H)%gen_bind_Ok.
    apply gen_bind_Ok in H as (ds' & st2 & Hds & H).
    apply gen_ret_Ok in H as [<- _]. constructor; [|by eapply IH].
    unfold _build_division in Hd.
    apply gen_bind_Ok in Hd as (name & st3 & _ & Hd).
    apply gen_bind_Ok in Hd as (teams & st4 & Hteams & Hd).
    apply gen_ret_Ok in Hd as [<- _]. cbn [Division.teams].
    eapply repeatM_Forall; [|exact Hteams]. apply build_team_from_theme.
Qed.

Lemma build_team_first fuel theme st :
  theme_ok theme → used_names R st = ∅ →
  ∃ team st', _build_team R fuel theme st = Ok (team, st').
Proof.
  intros (Hl & Hm & Ha & Hi & Ht & Hfmt) Hused. unfold _build_team, gen_bind.
  destruct (choice_total R _ st Hl) as (location & st1 & Hc1). rewrite Hc1.
  apply choice_Ok in Hc1 as [_ Hu1].
  destruct (choice_total R _ st1 Hm) as (mascot & st2 & Hc2). rewrite Hc2.
  apply choice_Ok in Hc2 as [_ Hu2].
  destruct (choice_total R _ st2 Ha) as (adjective & st3 & Hc3). rewrite Hc3.
  apply choice_Ok in Hc3 as [_ Hu3].
  unfold random at 1. cbn beta iota.
  set (st4 := GenState R _ (used_names R st3)).
  set (base_name := if bool_decide _ then _ else _).
  assert (while_name_used R fuel base_name base_name st4 = Ok (base_name, st4)) as ->.
  { destruct fuel; simpl; rewrite decide_False; try done;
      rewrite Hu3, Hu2, Hu1, Hused; set_solver. }
  unfold add_used_name at 1. cbn beta iota.
  destruct (choice_total R _ {| st_rng := st_rng R st4;
                                used_names := {[base_name]} ∪ used_names R st4 |} Hi)
    as (inspiration & st7 & ->).
  destruct (choice_total R _ st7 Ht) as (template & st8 & Hc). rewrite Hc.
  apply choice_Ok in Hc as [Hc _]. rewrite Forall_forall in Hfmt.
  destruct (Hfmt _ Hc inspiration location) as [notes ->]. cbn. eauto.
Qed.

Lemma build_divisions_one_team fuel theme total custom idx sizes st :
  theme_ok theme → 1 ≤ idx → used_names R st = ∅ →
  (total_teams sizes ≤ 1)%nat →
  ∃ ds st', build_divisions R fuel theme total custom idx sizes st = Ok (ds, st').
Proof.
  intros Hok. revert idx st.
  induction sizes as [|n sizes IH]; intros idx st Hidx Hused Htotal.
  - by exists [], st.
  - change (total_teams (n :: sizes))
      with (Z.to_nat n + total_teams sizes)%nat in Htotal.
    cbn [build_divisions].
    destruct (division_name_total theme idx total custom Hidx) as [name Hname].
    unfold gen_bind at 1, _build_division. unfold gen_bind at 1.
    rewrite Hname. cbn beta iota delta [gen_lift result_map result_bind].
    destruct (Z.to_nat n) as [|[|k]] eqn:Hn; [| |lia].
    + cbn. destruct (IH (idx + 1) st ltac:(lia) Hused ltac:(lia))
        as (ds & st' & Hds).
      unfold gen_bind at 1. rewrite Hds. eauto.
    + destruct (build_team_first fuel theme st Hok Hused) as (team & st1 & Hteam).
      cbn [repeatM]. unfold gen_bind at 1. unfold gen_bind at 1.
      rewrite Hteam. cbn.
      destruct (build_divisions_no_teams R fuel theme total custom (idx + 1)
                  sizes st1 ltac:(lia)) as (ds & Hds & _).
      { clear -Htotal. induction sizes as [|m sizes IH]; [constructor|].
        change (total_teams (m :: sizes))
          with (Z.to_nat m + total_teams sizes)%nat in Htotal.
        constructor; [lia|apply IH; lia]. }
      unfold gen_bind at 1. rewrite Hds. eauto.
Qed.
End generated_teams.

(** X4: every team of a generated pyramid is made of the theme's
    vocabulary: its location and inspiration are entries of the theme's
    lists, its name is the location followed by a mascot, or by an
    adjective and a mascot, of the theme, possibly followed by one of
    the extra suffixes, and its notes are one of the theme's templates
    filled in with that inspiration and location. *)
Theorem generated_teams_from_theme (R : RandomLib) {datetime} fuel (now : datetime)
    os_entropy level_sizes theme seed title description custom_division_names
    extra_meta p :
  generate_pyramid R fuel now os_entropy level_sizes theme seed title description
    custom_division_names extra_meta = Ok p →
  ∃ theme_obj,
    get_theme theme = Ok theme_obj ∧
    ∀ d team, d ∈ Pyramid.divisions p → team ∈ Division.teams d →
              team_from_theme theme_obj team.
Proof.
  intros (theme_obj & ds & st' & _ & Ht & Hb & ->)%generate_pyramid_Ok.
  exists theme_obj. split; [done|]. cbn [Pyramid.divisions].
  intros d team (d0 & -> & Hd0)%list_elem_of_fmap Hteam.
  cbn [sort_teams Division.teams] in Hteam. apply elem_of_list_sort in Hteam.
  apply build_divisions_teams in Hb. rewrite Forall_forall in Hb.
  specialize (Hb d0 Hd0). rewrite Forall_forall in Hb. by apply Hb.
Qed.

Lemma generated_teams_from_theme_witness :
  Forall (λ d, Forall (team_from_theme theme_eorzea) (Division.teams d))
    (Pyramid.divisions Sample.pyramid_a).
Proof.
  destruct (generated_teams_from_theme Sample.lcg 10 "026-11-03T00:00:00" 5 [1; 2]
              "eorzea" (Some 42) None None None None Sample.pyramid_a)
    as (theme_obj & Ht & H).
  - vm_compute. reflexivity.
  - vm_compute in Ht. injection Ht as <-.
    apply Forall_forall. intros d Hd. apply Forall_forall. intros team Hteam.
    by apply (H d).
Defined.

(** X5: a generated pyramid has one division per level size, in the
    order of [level_sizes]; the division for size [n] has [n] teams (none
    when [n] is negative) and its short name is
    ["{short_prefix} L{level}"]. *)
Theorem generated_layout (R : RandomLib) {datetime} fuel (now : datetime)
    os_entropy level_sizes theme seed title description custom_division_names
    extra_meta p :
  generate_pyramid R fuel now os_entropy level_sizes theme seed title description
    custom_division_names extra_meta = Ok p →
  ∃ theme_obj,
    get_theme theme = Ok theme_obj ∧
    Forall2 (λ d n, length (Division.teams d) = Z.to_nat n)
      (Pyramid.divisions p) level_sizes ∧
    Forall (λ d, Division.short_name d
                 = Some (Theme.short_prefix theme_obj +:+ " L"
                         +:+ pretty (Division.level d)))
      (Pyramid.divisions p).
Proof.
  intros (theme_obj & ds & st' & _ & Ht & Hb & ->)%generate_pyramid_Ok.
  exists theme_obj. split; [done|]. cbn [Pyramid.divisions].
  apply build_divisions_Ok in Hb as (_ & Hnm & Hsz & _). split.
  - apply Forall2_fmap_l. eapply Forall2_impl; [exact Hsz|].
    intros d n Hd. cbn. by rewrite list_sort_length.
  - apply Forall_fmap. eapply Forall_impl; [exact Hnm|].
    by intros d [_ Hshort].
Qed.

Lemma generated_layout_witness :
  Forall2 (λ d n, length (Division.teams d) = Z.to_nat n)
    (Pyramid.divisions Sample.pyramid_c) [1; 0; 1].
Proof.
  destruct (generated_layout Sample.lcg 10 "026-11-03T00:00:00" 5 [1; 0; 1]
              "eorzea" (Some 3) None None (Some ["Top Flight"])
              (Some {[ "seed" := JStr "kept" ]}) Sample.pyramid_c)
    as (theme_obj & _ & H & _).
  - vm_compute. reflexivity.
  - exact H.
Defined.

(** X6: [generate_pyramid] raises in two cases only: the [ValueError]
    for an empty [level_sizes], and, for a non-empty one, whatever
    [get_theme] raises for the theme key.  Nothing that is drawn or
    formatted afterwards can raise. *)
Theorem generate_pyramid_raises (R : RandomLib) {datetime} fuel (now : datetime)
    os_entropy level_sizes theme seed title description custom_division_names
    extra_meta e :
  generate_pyramid R fuel now os_entropy level_sizes theme seed title description
    custom_division_names extra_meta = Raise e ↔
  (level_sizes = [] ∧
   e = ValueError "At least one level size is required to generate a pyramid.") ∨
  (level_sizes ≠ [] ∧ get_theme theme = Raise e).
Proof.
  unfold generate_pyramid. destruct level_sizes as [|n sizes].
  { split; [intros [= <-]; by left|]. by intros [[_ ->]|[? _]]. }
  destruct (get_theme theme) as [theme_obj|e'|] eqn:Ht; cbn [result_bind].
  - split; [|by intros [[? _]|[_ ?]]].
    destruct (build_divisions _ _ _ _ _ _ _ _) as [[ds st']|e'|] eqn:Hb; [done| |done].
    apply build_divisions_no_raise in Hb; [done| |lia]. by apply (get_theme_ok theme).
  - split; [intros [= <-]; by right|]. by intros [[? _]|[_ [= <-]]].
  - split; [done|]. by intros [[? _]|[_ ?]].
Qed.

(** X7: when at most one team is asked for in all, the call returns
    under every iteration budget, with every generator: the one name
    drawn cannot collide. *)
Theorem generate_pyramid_one_team (R : RandomLib) {datetime} fuel (now : datetime)
    os_entropy level_sizes theme theme_obj seed title description
    custom_division_names extra_meta :
  level_sizes ≠ [] → (total_teams level_sizes ≤ 1)%nat →
  get_theme theme = Ok theme_obj →
  ∃ p, generate_pyramid R fuel now os_entropy level_sizes theme seed title
         description custom_division_names extra_meta = Ok p.
Proof.
  intros Hne Htotal Ht. unfold generate_pyramid.
  destruct level_sizes as [|n sizes]; [done|]. rewrite Ht. cbn [result_bind].
  destruct (build_divisions_one_team R fuel theme_obj
              (Z.of_nat (length (n :: sizes))) custom_division_names 1 (n :: sizes)
              (GenState R (Random R seed os_entropy) ∅)) as (ds & st' & ->);
    [by apply (get_theme_ok theme)|lia|done|done|].
  cbn [result_bind]. eauto.
Qed.

Lemma generate_pyramid_one_team_witness :
  ∃ p, generate_pyramid Sample.lcg 0 "026-11-03T00:00:00" 5 [0; 1; -2] "garlemald"
         (Some 8) None None None None = Ok p.
Proof.
  apply (generate_pyramid_one_team Sample.lcg 0 "026-11-03T00:00:00" 5 [0; 1; -2]
           "garlemald" theme_garlemald).
  - discriminate.
  - vm_compute. lia.
  - vm_compute. reflexivity.
Defined.

(** X8: when more teams are asked for than eight times the number of
    base names of the theme (locations times mascots times one more than
    the adjectives), the call returns under no iteration budget. *)
Theorem more_teams_than_names (R : RandomLib) {datetime} fuel (now : datetime)
    os_entropy level_sizes theme theme_obj seed title description
    custom_division_names extra_meta :
  get_theme theme = Ok theme_obj →
  (8 * (length (Theme.locations theme_obj) * length (Theme.mascots theme_obj)
        * (1 + length (Theme.adjectives theme_obj)))
   < total_teams level_sizes)%nat →
  generate_pyramid R fuel now os_entropy level_sizes theme seed title description
    custom_division_names extra_meta = OutOfFuel.
Proof.
  intros Ht Hlt. apply (generate_pyramid_exhausts R _ _ _ _ _ theme_obj); [done|].
  rewrite length_candidate_names.
  change (length _EXTRA_TEAM_SUFFIXES) with 7%nat. lia.
Qed.

Lemma more_teams_than_names_witness :
  generate_pyramid Sample.lcg 1000 "026-11-03T00:00:00" 5 [6000; 6000; 9200]
    "far_east" (Some 8) None None None None = OutOfFuel.
Proof.
  apply (more_teams_than_names Sample.lcg 1000 "026-11-03T00:00:00" 5
           [6000; 6000; 9200] "far_east" theme_far_east).
  - vm_compute. reflexivity.
  - cbn [total_teams foldr].
    change (length (Theme.locations theme_far_east)) with 16%nat.
    change (length (Theme.mascots theme_far_east)) with 15%nat.
    change (length (Theme.adjectives theme_far_east)) with 10%nat. lia.
Defined.


(** ** [Pyramid.sort] *)

Section list_sort_more.
Context {A K : Type} (R : relation K) `{!RelDecision R} (key : A → K).
Context `{!EqDecision K}.

(** Inserting an element does not disturb the order among the elements
    of any one key. *)
Lemma sort_insert_filter `{!Reflexive R} (k : K) x l :
  filter (λ y, key y = k) (sort_insert R key x l)
  = filter (λ y, key y = k) (x :: l).
Proof.
  induction l as [|y l IH]; [done|]. cbn [sort_insert].
  case_decide as Hxy; [done|].
  rewrite (filter_cons _ y), IH, !(filter_cons _ x), (filter_cons _ y).
  destruct (decide (key x = k)) as [Hx|Hx]; [|done].
  destruct (decide (key y = k)) as [Hy|Hy]; [|done].
  destruct Hxy. by rewrite Hx, Hy.
Qed.

Lemma list_sort_filter `{!Reflexive R} (k : K) l :
  filter (λ y, key y = k) (list_sort R key l) = filter (λ y, key y = k) l.
Proof.
  induction l as [|x l IH]; [done|].
  unfold list_sort in *. cbn [foldr].
  by rewrite sort_insert_filter, !(filter_cons _ x), IH.
Qed.
End list_sort_more.

Lemma filter_fmap_key {A B K} `{!EqDecision K} (keyA : A → K) (keyB : B → K)
    (f : A → B) (k : K) (l : list A) :
  (∀ x, keyB (f x) = keyA x) →
  filter (λ y, keyB y = k) (f <$> l) = f <$> filter (λ x, keyA x = k) l.
Proof.
  intros Hkey. induction l as [|x l IH]; [done|].
  rewrite fmap_cons, !filter_cons, Hkey, IH. by case_decide.
Qed.

Lemma sort_teams_ordered_id d :
  StronglySorted String.le (Team.name <$> Division.teams d) → sort_teams d = d.
Proof.
  intros Hd. destruct d as [level name short_name teams]. unfold sort_teams.
  cbn [Division.level Division.name Division.short_name Division.teams] in *.
  f_equal. by apply list_sort_id.
Qed.

Lemma sort_ordered_id {datetime} (p : Pyramid.t datetime) :
  levels_non_decreasing p → teams_ordered p → sort p = p.
Proof.
  destruct p as [title description divisions meta generated_at].
  intros Hlevels Hteams. unfold levels_non_decreasing, teams_ordered, sort in *.
  cbn [Pyramid.title Pyramid.description Pyramid.divisions Pyramid.meta
         Pyramid.generated_at] in *.
  f_equal. rewrite list_sort_id by done.
  induction Hteams as [|d ds Hd _ IH]; [done|].
  rewrite fmap_cons, sort_teams_ordered_id by done.
  apply StronglySorted_inv in Hlevels as [Hlevels _]. by rewrite IH.
Qed.

Lemma sort_sort {datetime} (p : Pyramid.t datetime) : sort (sort p) = sort p.
Proof.
  apply sort_ordered_id; [apply sort_levels_non_decreasing|apply sort_teams_ordered].
Qed.

(** X9: [Pyramid.sort] leaves a pyramid that is in order as it is, and
    sorting twice is sorting once. *)
Theorem sort_fixes_ordered {datetime} (p : Pyramid.t datetime) :
  (levels_non_decreasing p → teams_ordered p → sort p = p) ∧
  sort (sort p) = sort p.
Proof. split; [apply sort_ordered_id|apply sort_sort]. Qed.

Lemma sort_fixes_ordered_witness : sort Sample.two_tops = Sample.two_tops.
Proof.
  destruct (sort_fixes_ordered Sample.two_tops) as [H _]. apply H.
  - unfold levels_non_decreasing. cbn. repeat constructor; lia.
  - unfold teams_ordered. cbn. repeat constructor; by vm_compute.
Defined.

(** X10: [Pyramid.sort] loses and invents nothing.  Title, description,
    meta and timestamp stay; the divisions are the old ones in another
    order, each with its level, name and short name and with its old
    teams in another order. *)
Theorem sort_keeps_content {datetime} (p : Pyramid.t datetime) :
  Pyramid.title (sort p) = Pyramid.title p ∧
  Pyramid.description (sort p) = Pyramid.description p ∧
  Pyramid.meta (sort p) = Pyramid.meta p ∧
  Pyramid.generated_at (sort p) = Pyramid.generated_at p ∧
  Pyramid.divisions (sort p) ≡ₚ sort_teams <$> Pyramid.divisions p ∧
  ∀ d, Division.level (sort_teams d) = Division.level d ∧
       Division.name (sort_teams d) = Division.name d ∧
       Division.short_name (sort_teams d) = Division.short_name d ∧
       Division.teams (sort_teams d) ≡ₚ Division.teams d.
Proof.
  do 4 (split; [done|]). split.
  - cbn. by rewrite list_sort_Permutation.
  - intros d. do 3 (split; [done|]). cbn. apply list_sort_Permutation.
Qed.

(** X11: [Pyramid.sort] is stable.  The divisions of any one level come
    out in the order they had, and so do the teams of any one name
    within a division. *)
Theorem sort_stable {datetime} (p : Pyramid.t datetime) :
  (∀ level,
     filter (λ d, Division.level d = level) (Pyramid.divisions (sort p))
     = sort_teams <$> filter (λ d, Division.level d = level) (Pyramid.divisions p)) ∧
  (∀ d name,
     filter (λ team, Team.name team = name) (Division.teams (sort_teams d))
     = filter (λ team, Team.name team = name) (Division.teams d)).
Proof.
  split.
  - intros level. cbn [sort Pyramid.divisions].
    rewrite (filter_fmap_key Division.level Division.level) by done.
    by rewrite (list_sort_filter Z.le Division.level).
  - intros d name. cbn [sort_teams Division.teams].
    apply (list_sort_filter String.le Team.name).
Qed.


(** ** Reading documents *)

Lemma result_mapM_Raise {A B} (f : A → result B) (good : list A) bad rest e :
  Forall (λ x, is_Ok (f x)) good → f bad = Raise e →
  result_mapM f (good ++ bad :: rest) = Raise e.
Proof.
  intros Hgood Hbad. induction Hgood as [|x good [y Hy] _ IH]; cbn [app result_mapM].
  - by rewrite Hbad.
  - by rewrite Hy, IH.
Qed.

(** The round trip of C3, for use below. *)
Lemma dict_to_pyramid_of_dict (D : DatetimeLib) (int_of_str : string → option Z)
    (p : Pyramid.t (datetime D)) :
  dict_to_pyramid D int_of_str (pyramid_to_dict D p) = Ok (sort p).
Proof.
  destruct p as [title description divisions meta generated_at].
  unfold dict_to_pyramid, pyramid_to_dict.
  cbn [Pyramid.title Pyramid.description Pyramid.divisions Pyramid.meta
         Pyramid.generated_at].
  simplify_map_eq. cbn [default iterate result_bind].
  rewrite (result_mapM_fmap division_to_dict (dict_to_division int_of_str))
    by apply dict_to_division_to_dict.
  cbn [result_bind]. by rewrite parse_generated_at_isoformat.
Qed.

Section reading.
Variable D : DatetimeLib.
Variable int_of_str : string → option Z.

(** X12: keys that a document leaves out take their defaults: the
    title ["Unnamed Pyramid"], an empty description, an empty meta, no
    divisions; and there is no timestamp when [generated_at] is missing,
    null or an empty string. *)
Theorem dict_to_pyramid_defaults data p :
  dict_to_pyramid D int_of_str data = Ok p →
  (data !! "title" = None → Pyramid.title p = "Unnamed Pyramid") ∧
  (data !! "description" = None → Pyramid.description p = "") ∧
  (data !! "meta" = None → Pyramid.meta p = ∅) ∧
  (data !! "divisions" = None → Pyramid.divisions p = []) ∧
  (truthy (default JNull (data !! "generated_at")) = false →
   Pyramid.generated_at p = None).
Proof.
  unfold dict_to_pyramid.
  intros (divisions_data & Hiter & H)%result_bind_Ok.
  apply result_bind_Ok in H as (divisions & Hdivs & H).
  apply result_bind_Ok in H as (generated_at & Hgen & H).
  apply result_bind_Ok in H as (title & Htitle & H).
  apply result_bind_Ok in H as (description & Hdesc & H).
  apply result_bind_Ok in H as (meta & Hmeta & H).
  injection H as <-.
  cbn [sort Pyramid.title Pyramid.description Pyramid.meta Pyramid.divisions
         Pyramid.generated_at].
  split_and!; intros Hnone.
  - rewrite Hnone in Htitle. by injection Htitle as <-.
  - rewrite Hnone in Hdesc. by injection Hdesc as <-.
  - rewrite Hnone in Hmeta. by injection Hmeta as <-.
  - rewrite Hnone in Hiter. injection Hiter as <-. by injection Hdivs as <-.
  - unfold parse_generated_at in Hgen. rewrite Hnone in Hgen. by injection Hgen as <-.
Qed.


(** X13: what is not stored with a division or a team takes its
    default: no teams, no short name; an empty location, an empty
    inspiration, no notes. *)
Theorem dict_to_division_defaults m division :
  dict_to_division int_of_str (JObj m) = Ok division →
  (m !! "teams" = None → Division.teams division = []) ∧
  (m !! "short_name" = None → Division.short_name division = None) ∧
  ∀ team_m team,
    JObj team_m ∈ match m !! "teams" with Some (JList l) => l | _ => [] end →
    dict_to_team (JObj team_m) = Ok team →
    (team_m !! "location" = None → Team.location team = "") ∧
    (team_m !! "inspiration" = None → Team.inspiration team = "") ∧
    (team_m !! "notes" = None → Team.notes team = None).
Proof.
  unfold dict_to_division, dict_get, subscript.
  intros (teams_v & [= <-] & H)%result_bind_Ok.
  apply result_bind_Ok in H as (teams_data & Hiter & H).
  apply result_bind_Ok in H as (teams & Hteams & H).
  apply result_bind_Ok in H as (level_v & _ & H).
  apply result_bind_Ok in H as (level & _ & H).
  apply result_bind_Ok in H as (name_v & _ & H).
  apply result_bind_Ok in H as (short_name_v & [= <-] & H).
  apply result_bind_Ok in H as (name & _ & H).
  apply result_bind_Ok in H as (short_name & Hshort & H).
  injection H as <-. cbn [Division.teams Division.short_name].
  split_and!.
  - intros Hnone. rewrite Hnone in Hiter. injection Hiter as <-.
    by injection Hteams as <-.
  - intros Hnone. rewrite Hnone in Hshort. by injection Hshort as <-.
  - intros team_m team _. unfold dict_to_team, dict_get, subscript.
    intros (name_v' & _ & H)%result_bind_Ok.
    apply result_bind_Ok in H as (location_v & [= <-] & H).
    apply result_bind_Ok in H as (inspiration_v & [= <-] & H).
    apply result_bind_Ok in H as (notes_v & [= <-] & H).
    apply result_bind_Ok in H as (name' & _ & H).
    apply result_bind_Ok in H as (location & Hloc & H).
    apply result_bind_Ok in H as (inspiration & Hinsp & H).
    apply result_bind_Ok in H as (notes & Hnotes & H).
    injection H as <-. cbn [Team.location Team.inspiration Team.notes].
    split_and!; intros Hnone.
    + rewrite Hnone in Hloc. by injection Hloc as <-.
    + rewrite Hnone in Hinsp. by injection Hinsp as <-.
    + rewrite Hnone in Hnotes. by injection Hnotes as <-.
Qed.

(** X14: a team without [name] and a division without [level] or
    without [name] are refused with a [KeyError] that names the missing
    key; a team that is not an object raises [TypeError], a division
    that is not an object [AttributeError]. *)
Theorem required_keys :
  (∀ m, m !! "name" = None → dict_to_team (JObj m) = Raise (KeyError "name")) ∧
  (∀ v, (∀ m, v ≠ JObj m) → dict_to_team v = Raise TypeError) ∧
  (∀ v, (∀ m, v ≠ JObj m) → dict_to_division int_of_str v = Raise AttributeError) ∧
  (∀ m teams,
     result_bind (iterate (default (JList []) (m !! "teams")))
       (result_mapM dict_to_team) = Ok teams →
     (m !! "level" = None →
      dict_to_division int_of_str (JObj m) = Raise (KeyError "level")) ∧
     (∀ level_v level,
        m !! "level" = Some level_v → int int_of_str level_v = Ok level →
        m !! "name" = None →
        dict_to_division int_of_str (JObj m) = Raise (KeyError "name"))).
Proof.
  split_and!.
  - intros m Hm. unfold dict_to_team, subscript. by rewrite Hm.
  - intros v Hv. destruct v; try done. by destruct (Hv m).
  - intros v Hv. destruct v; try done. by destruct (Hv m).
  - intros m teams (teams_data & Hiter & Hteams)%result_bind_Ok.
    unfold dict_to_division, dict_get, subscript. cbn [result_bind].
    rewrite Hiter. cbn [result_bind]. rewrite Hteams. cbn [result_bind].
    split.
    + by intros ->.
    + intros level_v level -> Hint ->. cbn [result_bind]. by rewrite Hint.
Qed.

(** X15: the first division that cannot be read decides the outcome of
    [dict_to_pyramid]: its exception is raised, whatever follows it in
    the document. *)
Theorem dict_to_pyramid_first_error data good bad rest e :
  data !! "divisions" = Some (JList (good ++ bad :: rest)) →
  Forall (λ v, is_Ok (dict_to_division int_of_str v)) good →
  dict_to_division int_of_str bad = Raise e →
  dict_to_pyramid D int_of_str data = Raise e.
Proof.
  intros Hdata Hgood Hbad. unfold dict_to_pyramid. rewrite Hdata.
  change (iterate (default (JList []) (Some (JList (good ++ bad :: rest)))))
    with (Ok (A:=list json) (good ++ bad :: rest)).
  cbn [result_bind]. by rewrite (result_mapM_Raise _ good bad rest e).
Qed.

(** X16: a pyramid that was read from a document is written and read
    back without change. *)
Theorem reload_stable data p :
  dict_to_pyramid D int_of_str data = Ok p →
  dict_to_pyramid D int_of_str (pyramid_to_dict D p) = Ok p.
Proof.
  intros [p0 ->]%dict_to_pyramid_Ok.
  by rewrite dict_to_pyramid_of_dict, sort_sort.
Qed.

Lemma pyramid_to_dict_lookups (p : Pyramid.t (datetime D)) :
  pyramid_to_dict D p !! "title" = Some (JStr (Pyramid.title p)) ∧
  pyramid_to_dict D p !! "description" = Some (JStr (Pyramid.description p)) ∧
  pyramid_to_dict D p !! "generated_at"
  = Some (match Pyramid.generated_at p with
          | Some d => JStr (isoformat D d)
          | None => JNull
          end) ∧
  pyramid_to_dict D p !! "meta" = Some (JObj (Pyramid.meta p)) ∧
  pyramid_to_dict D p !! "divisions"
  = Some (JList (division_to_dict <$> Pyramid.divisions p)).
Proof. repeat split; vm_compute; reflexivity. Qed.

(** X17: the document of a pyramid determines the pyramid: two pyramids
    with the same document are equal. *)
Theorem pyramid_to_dict_inj (p1 p2 : Pyramid.t (datetime D)) :
  pyramid_to_dict D p1 = pyramid_to_dict D p2 → p1 = p2.
Proof.
  intros Heq.
  destruct (pyramid_to_dict_lookups p1) as (Ht1 & Hd1 & Hg1 & Hm1 & Hdiv1).
  destruct (pyramid_to_dict_lookups p2) as (Ht2 & Hd2 & Hg2 & Hm2 & Hdiv2).
  rewrite Heq in Ht1, Hd1, Hg1, Hm1, Hdiv1.
  destruct p1 as [title1 description1 divisions1 meta1 generated_at1].
  destruct p2 as [title2 description2 divisions2 meta2 generated_at2].
  cbn [Pyramid.title Pyramid.description Pyramid.divisions Pyramid.meta
         Pyramid.generated_at] in *.
  assert (title1 = title2) as -> by congruence.
  assert (description1 = description2) as -> by congruence.
  assert (meta1 = meta2) as -> by congruence.
  assert (divisions1 = divisions2) as ->.
  { pose proof (result_mapM_fmap division_to_dict (dict_to_division int_of_str)
                  divisions1 (dict_to_division_to_dict int_of_str)) as H1.
    pose proof (result_mapM_fmap division_to_dict (dict_to_division int_of_str)
                  divisions2 (dict_to_division_to_dict int_of_str)) as H2.
    congruence. }
  assert (generated_at1 = generated_at2) as ->; [|done].
  pose proof (parse_generated_at_isoformat D generated_at1) as H1.
  pose proof (parse_generated_at_isoformat D generated_at2) as H2.
  congruence.
Qed.
End reading.


Lemma dict_to_pyramid_defaults_witness :
  Pyramid.title (Pyramid.mk (datetime:=string) "Unnamed Pyramid" "" [] ∅ None)
  = "Unnamed Pyramid" ∧
  Pyramid.meta (Pyramid.mk (datetime:=string) "Unnamed Pyramid" "" [] ∅ None) = ∅.
Proof.
  destruct (dict_to_pyramid_defaults Sample.clock Sample.int_of_digits ∅
              (Pyramid.mk "Unnamed Pyramid" "" [] ∅ None))
    as (Htitle & _ & Hmeta & _).
  - vm_compute. reflexivity.
  - split; [apply Htitle|apply Hmeta]; reflexivity.
Defined.

Lemma dict_to_division_defaults_witness :
  Division.teams (Division.mk 2 "South" None []) = [] ∧
  Division.short_name (Division.mk 2 "South" None []) = None.
Proof.
  destruct (dict_to_division_defaults Sample.int_of_digits
              {[ "level" := JInt 2; "name" := JStr "South" ]}
              (Division.mk 2 "South" None [])) as (Hteams & Hshort & _).
  - vm_compute. reflexivity.
  - split; [apply Hteams|apply Hshort]; vm_compute; reflexivity.
Defined.

Lemma required_keys_witness :
  dict_to_team (JObj {[ "location" := JStr "Bozja" ]}) = Raise (KeyError "name") ∧
  dict_to_division Sample.int_of_digits (JObj {[ "name" := JStr "North" ]})
  = Raise (KeyError "level").
Proof.
  destruct (required_keys Sample.int_of_digits) as (Hteam & _ & _ & Hdivision).
  split.
  - apply Hteam. vm_compute. reflexivity.
  - destruct (Hdivision {[ "name" := JStr "North" ]} []) as [Hlevel _].
    + vm_compute. reflexivity.
    + apply Hlevel. vm_compute. reflexivity.
Defined.

Lemma dict_to_pyramid_first_error_witness :
  dict_to_pyramid Sample.clock Sample.int_of_digits Sample.document_no_level
  = Raise (KeyError "level").
Proof.
  apply (dict_to_pyramid_first_error Sample.clock Sample.int_of_digits
           Sample.document_no_level
           [ JObj {[ "level" := JInt 2; "name" := JStr "South" ]} ]
           (JObj {[ "name" := JStr "North" ]}) [ JStr "never read" ]).
  - vm_compute. reflexivity.
  - repeat constructor. eexists. vm_compute. reflexivity.
  - vm_compute. reflexivity.
Defined.

Lemma reload_stable_witness :
  dict_to_pyramid Sample.clock Sample.int_of_digits
    (pyramid_to_dict Sample.clock Sample.two_tops) = Ok Sample.two_tops.
Proof.
  apply (reload_stable Sample.clock Sample.int_of_digits Sample.document_two_tops).
  vm_compute. reflexivity.
Defined.

Lemma pyramid_to_dict_inj_witness :
  Sample.returned (dict_to_pyramid Sample.clock Sample.int_of_digits ∅)
  = Pyramid.mk "Unnamed Pyramid" "" [] ∅ None.
Proof.
  apply (pyramid_to_dict_inj Sample.clock Sample.int_of_digits).
  vm_compute. reflexivity.
Defined.

Lemma sorted_lt_le (l : list Z) : StronglySorted Z.lt l → StronglySorted Z.le l.
Proof.
  induction 1 as [|x l _ IH Hx]; constructor; [done|].
  eapply Forall_impl; [exact Hx|]. intros y Hy. simpl in Hy. lia.
Qed.

(** X18: a generated pyramid is its own round trip: reading back the
    document written for it gives the very same pyramid, teams and
    divisions in the same order. *)
Theorem generated_round_trip (R : RandomLib) (D : DatetimeLib)
    (int_of_str : string → option Z) fuel (now : datetime D) os_entropy
    level_sizes theme seed title description custom_division_names extra_meta p :
  generate_pyramid R fuel now os_entropy level_sizes theme seed title description
    custom_division_names extra_meta = Ok p →
  dict_to_pyramid D int_of_str (pyramid_to_dict D p) = Ok p.
Proof.
  intros Hgen. rewrite dict_to_pyramid_of_dict. f_equal. apply sort_ordered_id.
  - apply sorted_lt_le. by eapply generated_levels_strictly_ascending.
  - by eapply generated_teams_ordered.
Qed.

Lemma generated_round_trip_witness :
  dict_to_pyramid Sample.clock Sample.int_of_digits
    (pyramid_to_dict Sample.clock Sample.pyramid_a) = Ok Sample.pyramid_a.
Proof.
  apply (generated_round_trip Sample.lcg Sample.clock Sample.int_of_digits 10
           "026-11-03T00:00:00" 5 [1; 2] "eorzea" (Some 42) None None None None).
  vm_compute. reflexivity.
Defined.


(** ** Reading Roman numerals back *)

Lemma roman_while_prefix fuel value numeral (pre res : list string) rem :
  roman_while fuel value numeral (pre ++ res, rem)
  = (pre ++ (roman_while fuel value numeral (res, rem)).1,
     (roman_while fuel value numeral (res, rem)).2).
Proof.
  revert res rem. induction fuel as [|fuel IH]; intros res rem; [done|].
  cbn [roman_while fst snd]. case_bool_decide; [|done].
  by rewrite <-(assoc_L (++)), IH.
Qed.

Lemma roman_while_fuel fuel fuel' value numeral (st : list string * Z) :
  1 ≤ value → st.2 ≤ Z.of_nat fuel → st.2 ≤ Z.of_nat fuel' →
  roman_while fuel value numeral st = roman_while fuel' value numeral st.
Proof.
  intros Hvalue. revert fuel' st.
  induction fuel as [|fuel IH]; intros [|fuel'] st H1 H2; cbn [roman_while];
    try done.
  - rewrite bool_decide_eq_false_2; [done|lia].
  - rewrite bool_decide_eq_false_2; [done|lia].
  - case_bool_decide; [|done]. apply IH; cbn [snd]; lia.
Qed.

Lemma roman_fold_prefix (l : list (Z * string)) (pre res : list string) rem :
  foldl roman_step (pre ++ res, rem) l
  = (pre ++ (foldl roman_step (res, rem) l).1, (foldl roman_step (res, rem) l).2).
Proof.
  revert res rem. induction l as [|vn l IH]; intros res rem; [done|].
  cbn [foldl]. unfold roman_step at 2 4 6. cbn [snd].
  rewrite roman_while_prefix.
  destruct (roman_while _ _ _ (res, rem)) as [res' rem']. apply IH.
Qed.

Lemma roman_tokens_thousand number :
  1000 ≤ number →
  (foldl roman_step ([], number) numerals).1
  = "M" :: (foldl roman_step ([], number - 1000) numerals).1.
Proof.
  intros Hn. unfold numerals.
  set (rest := (900, "CM") :: _). cbn [foldl].
  assert (roman_step ([], number) (1000, "M")
          = (["M"] ++ (roman_step ([], number - 1000) (1000, "M")).1,
             (roman_step ([], number - 1000) (1000, "M")).2)) as ->.
  { unfold roman_step. cbn [fst snd].
    destruct (Z.to_nat number) as [|fuel] eqn:Hfuel; [lia|].
    cbn [roman_while fst snd]. rewrite bool_decide_eq_true_2 by done.
    rewrite (roman_while_prefix fuel 1000 "M" ["M"] []).
    by rewrite (roman_while_fuel fuel (Z.to_nat (number - 1000))) by (cbn; lia). }
  destruct (roman_step ([], number - 1000) (1000, "M")) as [res rem].
  cbn [fst snd]. by rewrite roman_fold_prefix.
Qed.

Lemma roman_digit_le c : roman_digit c ≤ 1000.
Proof. unfold roman_digit. repeat case_decide; lia. Qed.

Lemma roman_value_thousand s : roman_value (String "M" s) = 1000 + roman_value s.
Proof.
  destruct s as [|c s]; [done|]. cbn [roman_value].
  rewrite bool_decide_eq_false_2; [done|].
  pose proof (roman_digit_le c). change (roman_digit "M") with 1000. lia.
Qed.

Lemma roman_value_below_thousand number :
  1 ≤ number < 1000 → roman_value (_roman number) = number.
Proof.
  intros Hn.
  assert (Forall (λ n, roman_value (_roman n) = n) (seqZ 1 999)) as Hall.
  { apply (bool_decide_unpack _). vm_compute. exact I. }
  rewrite Forall_forall in Hall. apply Hall, elem_of_seqZ. lia.
Qed.

(** X19: a Roman numeral written by [_roman] for a number from 1 on
    reads back as that number; so [_roman] gives different numerals to
    different positive numbers. *)
Theorem roman_value_roman number :
  1 ≤ number → roman_value (_roman number) = number.
Proof.
  intros Hn.
  assert (∀ k : nat, ∀ n, 1 ≤ n < 1000 * (Z.of_nat k + 1) →
                          roman_value (_roman n) = n) as Hind.
  { clear. intros k. induction k as [|k IH]; intros n Hn.
    { apply roman_value_below_thousand. lia. }
    destruct (decide (n < 1000)) as [Hlt|Hge].
    { apply roman_value_below_thousand. lia. }
    destruct (decide (n = 1000)) as [->|Hne]; [by vm_compute|].
    specialize (IH (n - 1000) ltac:(lia)).
    unfold _roman in *. rewrite roman_tokens_thousand by lia.
    destruct (foldl roman_step ([], n - 1000) numerals).1 as [|t ts] eqn:Htoks.
    - assert (n - 1000 = 1) as Hone by (rewrite <-IH; by vm_compute).
      rewrite Hone in Htoks. by vm_compute in Htoks.
    - change (join "" ("M" :: t :: ts)) with (String "M"%char (join "" (t :: ts))).
      rewrite roman_value_thousand, IH. lia. }
  apply (Hind (Z.to_nat number)). lia.
Qed.

Lemma roman_value_roman_witness : roman_value (_roman 2024) = 2024.
Proof. apply roman_value_roman. lia. Defined.


(** ** Files *)

Section files_facts.
Variable D : DatetimeLib.
Variable OS : OsLib.
Variable J : JsonLib.
Variable int_of_str : string → option Z.

Lemma io_bind_Ok {A B} (m : IO OS A) (k : A → IO OS B) w b w' :
  io_bind OS m k w = IoOk (b, w') ↔
  ∃ a w1, m w = IoOk (a, w1) ∧ k a w1 = IoOk (b, w').
Proof.
  unfold io_bind. split.
  - destruct (m w) as [[a w1]| |]; [|done..]. eauto.
  - by intros (a & w1 & -> & Hk).
Qed.

Lemma io_lift_Ok {A} (r : result A) w a w' :
  io_lift OS r w = IoOk (a, w') ↔ r = Ok a ∧ w' = w.
Proof. unfold io_lift. destruct r; cbn; naive_solver. Qed.

Lemma save_pyramid_Ok pyramid path w target w' :
  save_pyramid D OS J pyramid path w = IoOk (target, w') →
  target = as_path OS path ∧
  lower (suffix OS target) = ".json" ∧
  stdout OS w' = stdout OS w ∧
  write_text OS target
    (dumps J (JObj (pyramid_to_dict D pyramid)) +:+ String "010"%char "")
    (fs OS w) = Some (fs OS w').
Proof.
  unfold save_pyramid. case_decide as Hsuffix; [done|].
  destruct (write_text _ _ _ _) as [fs'|] eqn:Hwrite; [|done].
  intros [= <- <-]. split; [done|]. split; [|done].
  by destruct (decide (lower (suffix OS (as_path OS path)) = ".json")).
Qed.

Lemma load_written pyramid target fs0 w :
  write_text OS target
    (dumps J (JObj (pyramid_to_dict D pyramid)) +:+ String "010"%char "") fs0
    = Some (fs OS w) →
  load_pyramid D OS J int_of_str (inr target) w = IoOk (sort pyramid, w).
Proof.
  intros [Hexists Hread]%read_after_write.
  unfold load_pyramid. cbn [as_path]. rewrite Hexists, Hread. cbn [negb].
  rewrite loads_dumps. unfold io_lift. by rewrite dict_to_pyramid_of_dict.
Qed.

Lemma load_after_save pyramid path w target w' :
  save_pyramid D OS J pyramid path w = IoOk (target, w') →
  load_pyramid D OS J int_of_str (inr target) w' = IoOk (sort pyramid, w').
Proof.
  intros (_ & _ & _ & [Hexists Hread]%read_after_write)%save_pyramid_Ok.
  unfold load_pyramid. cbn [as_path]. rewrite Hexists, Hread. cbn [negb].
  rewrite loads_dumps. unfold io_lift. by rewrite dict_to_pyramid_of_dict.
Qed.

Lemma load_pyramid_Ok path w p w' :
  load_pyramid D OS J int_of_str path w = IoOk (p, w') →
  w' = w ∧ ∃ p0, p = sort p0.
Proof.
  unfold load_pyramid. destruct (negb _); [done|].
  destruct (read_text _ _ _) as [text|]; [|done].
  destruct (loads J text) as [[| | | | |data]|]; try done.
  intros [Hp ->]%io_lift_Ok. split; [done|]. by eapply dict_to_pyramid_Ok.
Qed.

(** X20: what [save_pyramid] has written, [load_pyramid] reads back:
    after a successful save, loading the returned path gives the saved
    pyramid, sorted.  The path is the one given and ends in [.json],
    whatever the case of the letters; nothing is printed. *)
Theorem save_then_load pyramid path w target w' :
  save_pyramid D OS J pyramid path w = IoOk (target, w') →
  load_pyramid D OS J int_of_str (inr target) w' = IoOk (sort pyramid, w') ∧
  target = as_path OS path ∧
  lower (suffix OS target) = ".json" ∧
  stdout OS w' = stdout OS w.
Proof.
  intros Hsave. split; [by eapply load_after_save|].
  by apply save_pyramid_Ok in Hsave as (? & ? & ? & _).
Qed.

(** X21: [save_pyramid] raises its [ValueError] about the extension
    exactly when the suffix of the path, in lower case, is not [.json];
    [load_pyramid] raises [FileNotFoundError], naming the path, exactly
    when the file does not exist. *)
Theorem file_errors pyramid path w :
  (save_pyramid D OS J pyramid path w
   = IoRaise (PyError (ValueError
       "The app currently writes JSON. Use a .json file extension."))
   ↔ lower (suffix OS (as_path OS path)) ≠ ".json") ∧
  (load_pyramid D OS J int_of_str path w
   = IoRaise (FileNotFoundError
       ("Pyramid file not found: " +:+ path_str OS (as_path OS path)))
   ↔ path_exists OS (as_path OS path) (fs OS w) = false).
Proof.
  split.
  - unfold save_pyramid. case_decide as Hsuffix; [done|].
    split; [|done]. by destruct (write_text _ _ _ _).
  - unfold load_pyramid.
    destruct (path_exists _ _ _); cbn [negb]; [|done].
    split; [|done].
    destruct (read_text _ _ _) as [text|]; [|done].
    destruct (loads J text) as [[| | | | |data]|]; try done.
    unfold io_lift. by destruct (dict_to_pyramid _ _ _).
Qed.

End files_facts.


(** ** Commands *)

Lemma get_theme_of_key key theme :
  get_theme key = Ok theme → get_theme (Theme.key theme) = Ok theme.
Proof.
  intros Hin%get_theme_Ok.
  repeat (apply elem_of_cons in Hin as [->|Hin]; [by vm_compute|]).
  by apply elem_of_nil in Hin.
Qed.

Lemma highlight_nonempty key theme :
  get_theme key = Ok theme → Theme.highlight theme ≠ "".
Proof.
  intros Hin%get_theme_Ok.
  repeat (apply elem_of_cons in Hin as [->|Hin]; [done|]).
  by apply elem_of_nil in Hin.
Qed.

Lemma append_nonempty (s t : string) : t ≠ "" → s +:+ t ≠ "".
Proof. intros Ht. destruct s; [done|]. discriminate. Qed.

Lemma str_or_nonempty value fallback : fallback ≠ "" → str_or value fallback ≠ "".
Proof. intros Hf. unfold str_or. destruct value as [s|]; [|done]. by case_decide. Qed.

Lemma str_or_Some s fallback : s ≠ "" → str_or (Some s) fallback = s.
Proof. intros Hs. unfold str_or. by rewrite decide_False. Qed.

Lemma division_name_given theme level total custom :
  _division_name theme level total (given_names custom)
  = _division_name theme level total custom.
Proof. by destruct custom as [[|name names]|]. Qed.

Lemma build_divisions_given (R : RandomLib) fuel theme total custom idx sizes st :
  build_divisions R fuel theme total (given_names custom) idx sizes st
  = build_divisions R fuel theme total custom idx sizes st.
Proof.
  revert idx st. induction sizes as [|n sizes IH]; intros idx st; [done|].
  cbn [build_divisions]. unfold gen_bind at 1 3, _build_division.
  rewrite division_name_given.
  destruct (gen_bind _ _ _ st) as [[d st1]| |]; [|done..].
  unfold gen_bind at 1 2. by rewrite IH.
Qed.

Lemma build_meta_given theme_obj seed level_sizes custom extra_meta :
  build_meta theme_obj seed level_sizes (given_names custom) extra_meta
  = build_meta theme_obj seed level_sizes custom extra_meta.
Proof. by destruct custom as [[|name names]|]. Qed.

Lemma build_meta_lookups theme_obj seed level_sizes custom :
  let meta := build_meta theme_obj seed level_sizes custom None in
  meta !! "theme" = Some (JStr (Theme.key theme_obj)) ∧
  meta !! "levels" = Some (JList (JInt <$> level_sizes)) ∧
  meta !! "custom_division_names"
  = (λ names, JList (JStr <$> names)) <$> given_names custom.
Proof.
  unfold build_meta.
  destruct custom as [[|name names]|]; cbn [truthy_seq default given_names fmap option_fmap option_map];
    split_and!; by simplify_map_eq.
Qed.

Lemma as_level_sizes_ints level_sizes :
  as_level_sizes (JList (JInt <$> level_sizes)) = Ok level_sizes.
Proof. unfold as_level_sizes. by apply result_mapM_fmap. Qed.

Lemma as_division_names_strs custom :
  as_division_names ((λ names, JList (JStr <$> names)) <$> custom) = Ok custom.
Proof.
  destruct custom as [names|]; [|done]. cbn. unfold result_map.
  by rewrite (result_mapM_fmap JStr as_str).
Qed.


Lemma generated_sort_id (R : RandomLib) {datetime} fuel (now : datetime)
    os_entropy level_sizes theme seed title description custom_division_names
    extra_meta p :
  generate_pyramid R fuel now os_entropy level_sizes theme seed title description
    custom_division_names extra_meta = Ok p →
  sort p = p.
Proof.
  intros Hgen. apply sort_ordered_id.
  - apply sorted_lt_le. by eapply generated_levels_strictly_ascending.
  - by eapply generated_teams_ordered.
Qed.

Section commands_facts.
Variable R : RandomLib.
Variable D : DatetimeLib.
Variable OS : OsLib.
Variable J : JsonLib.
Variable C : ConsoleLib.
Variable int_of_str : string → option Z.

Lemma print_Ok text w u w' :
  print OS text w = IoOk (u, w') →
  fs OS w' = fs OS w ∧ stdout OS w' = stdout OS w ++ [text].
Proof. unfold print. by intros [= _ <-]. Qed.

Lemma io_lift_Raise {A} (r : result A) w e :
  io_lift OS r w = IoRaise e → ∃ e', e = PyError e'.
Proof. unfold io_lift. destruct r; cbn; [done| |done]. intros [= <-]. eauto. Qed.

(** X23: once the template is loaded, [_handle_resample] stops with
    [SystemExit] and its advice to give [--levels] exactly when no
    level sizes are given on the command line and the meta of the
    loaded pyramid has none (no entry, null, or an empty list); no
    later step of the command exits that way. *)
Theorem resample_needs_levels fuel now os_entropy randint args w pyramid :
  load_pyramid D OS J int_of_str (inr (path_of OS (ResampleArgs.source args))) w
    = IoOk (pyramid, w) →
  _handle_resample R D OS J C int_of_str fuel now os_entropy randint args w
  = IoRaise (SystemExit
      "The template pyramid does not contain level metadata. Provide --levels explicitly.")
  ↔ truthy_seq (ResampleArgs.levels args) = false ∧
    truthy (default JNull (Pyramid.meta pyramid !! "levels")) = false.
Proof.
  intros Hload. unfold _handle_resample. unfold io_bind at 1. rewrite Hload.
  split.
  - intros Hrun.
    destruct (decide (truthy_seq (ResampleArgs.levels args) = false
                      ∧ truthy (default JNull (Pyramid.meta pyramid !! "levels")) = false))
      as [|Hlevels]; [done|]. exfalso.
    destruct (negb _) eqn:Hnot in Hrun.
    { apply Hlevels. apply negb_true_iff in Hnot.
      destruct (truthy_seq (ResampleArgs.levels args)) eqn:Hargs; [|done].
      destruct (ResampleArgs.levels args) as [[|n l]|]; done. }
    unfold io_bind at 1 in Hrun.
    destruct (io_lift _ _ _) as [[p1 w1]|e|] eqn:Hlift in Hrun; [| |done].
    + destruct (ResampleArgs.preview args); [done|].
      unfold io_bind, save_pyramid in Hrun. case_decide; [done|].
      by destruct (write_text _ _ _ _).
    + apply io_lift_Raise in Hlift as [e' ->]. done.
  - intros [Hargs Hmeta]. by rewrite Hargs, Hmeta.
Qed.

(** X24: resampling a saved pyramid with the seed it was generated
    with, and nothing else overridden, writes the same pyramid again:
    the file written holds the divisions, title and description of the
    original, and its meta is the original's with [resampled_from] set
    to the source path. *)
Theorem resample_same_seed fuel0 (now0 : datetime D) os_entropy0 level_sizes theme
    seed title0 description0 custom_division_names p0
    fuel now os_entropy randint source output w w' :
  generate_pyramid R fuel0 now0 os_entropy0 level_sizes theme (Some seed) title0
    description0 custom_division_names None = Ok p0 →
  load_pyramid D OS J int_of_str (inr (path_of OS source)) w = IoOk (p0, w) →
  _handle_resample R D OS J C int_of_str fuel now os_entropy randint
    (ResampleArgs.mk source output None None (Some seed) None None None false) w
    = IoOk (tt, w') →
  ∃ p1 target,
    load_pyramid D OS J int_of_str (inr target) w' = IoOk (p1, w') ∧
    Pyramid.divisions p1 = Pyramid.divisions p0 ∧
    Pyramid.title p1 = Pyramid.title p0 ∧
    Pyramid.description p1 = Pyramid.description p0 ∧
    Pyramid.meta p1
    = <[ "resampled_from" := JStr (path_str OS (path_of OS source)) ]> (Pyramid.meta p0) ∧
    Pyramid.generated_at p1 = Some now.
Proof.
  intros Hgen0 Hload Hres.
  pose proof Hgen0 as (theme_obj & ds0 & st0 & Hne & Htheme & Hb0 & Hp0)%generate_pyramid_Ok.
  unfold _handle_resample in Hres.
  cbn [ResampleArgs.source ResampleArgs.output ResampleArgs.levels ResampleArgs.theme
         ResampleArgs.seed ResampleArgs.division_names ResampleArgs.title
         ResampleArgs.description ResampleArgs.preview truthy_seq] in Hres.
  apply io_bind_Ok in Hres as (pyramid & w1 & Hload' & Hres).
  rewrite Hload in Hload'. injection Hload' as <- <-.
  destruct (build_meta_lookups theme_obj (Some seed) level_sizes custom_division_names)
    as (Hmt & Hml & Hmc).
  assert (Pyramid.meta p0
          = build_meta theme_obj (Some seed) level_sizes custom_division_names None)
    as Hmeta by (by rewrite Hp0).
  rewrite Hmeta, Hmt, Hml, Hmc in Hres. cbn [default from_option id] in Hres.
  assert (truthy (JList (JInt <$> level_sizes)) = true) as Htruthy.
  { destruct level_sizes; [done|]. by cbn. }
  rewrite Htruthy in Hres. cbn [negb] in Hres.
  apply io_bind_Ok in Hres as (p1 & w2 & [Hgen1 ->]%io_lift_Ok & Hsave).
  rewrite (get_theme_of_key theme theme_obj Htheme) in Hgen1. cbn [result_bind] in Hgen1.
  rewrite as_level_sizes_ints in Hgen1. cbn [result_bind] in Hgen1.
  rewrite as_division_names_strs in Hgen1. cbn [result_bind] in Hgen1.
  apply io_bind_Ok in Hsave as (target & w3 & Hsave & [Hfs Hout]%print_Ok).
  apply save_pyramid_Ok in Hsave as (_ & _ & _ & Hwrite). rewrite <-Hfs in Hwrite.
  exists p1, target. split.
  { pose proof (generated_sort_id _ _ _ _ _ _ _ _ _ _ _ _ Hgen1) as Hsort.
    pose proof (load_written D OS J int_of_str _ _ _ _ Hwrite) as Hread.
    by rewrite Hsort in Hread. }
  apply generate_pyramid_Ok in Hgen1
    as (theme_obj1 & ds1 & st1 & _ & Htheme1 & Hb1 & ->).
  rewrite (get_theme_of_key theme theme_obj Htheme) in Htheme1.
  injection Htheme1 as <-.
  rewrite build_divisions_given in Hb1. cbn [Random] in Hb0, Hb1.
  pose proof (build_divisions_fuel_irrelevant _ _ _ _ _ _ _ _ _ _ _ Hb0 Hb1) as Heq.
  injection Heq as <- <-. rewrite Hp0.
  cbn [Pyramid.title Pyramid.description Pyramid.divisions Pyramid.meta
         Pyramid.generated_at].
  split; [done|]. split; [|split; [|split; [|done]]].
  - cbn [str_or]. apply str_or_Some, str_or_nonempty.
    by apply append_nonempty.
  - cbn [str_or]. apply str_or_Some, str_or_nonempty.
    by apply (highlight_nonempty theme).
  - rewrite build_meta_given, build_meta_union. cbn [default].
    by rewrite insert_union_singleton_l.
Qed.
Lemma handle_generate_saved fuel now os_entropy randint args w w' :
  GenerateArgs.preview args = false →
  _handle_generate R D OS J C fuel now os_entropy randint args w = IoOk (tt, w') →
  ∃ p,
    generate_pyramid R fuel now os_entropy (GenerateArgs.levels args)
      (GenerateArgs.theme args) (Some (default randint (GenerateArgs.seed args)))
      (GenerateArgs.title args) (GenerateArgs.description args)
      (GenerateArgs.division_names args) None = Ok p ∧
    load_pyramid D OS J int_of_str (inl (GenerateArgs.output args)) w' = IoOk (p, w') ∧
    stdout OS w'
    = stdout OS w
        ++ ["Saved new pyramid to " +:+ path_str OS (path_of OS (GenerateArgs.output args))
            +:+ " (seed=" +:+ pretty (default randint (GenerateArgs.seed args)) +:+ ")"].
Proof.
  intros Hpreview Hrun. unfold _handle_generate in Hrun. rewrite Hpreview in Hrun.
  apply io_bind_Ok in Hrun as ([p seed] & w1 & [Hgen ->]%io_lift_Ok & Hrun).
  unfold _generate_from_args in Hgen.
  apply result_bind_Ok in Hgen as (p' & Hgen & [= -> <-]).
  apply io_bind_Ok in Hrun as (target & w2 & Hsave & [Hfs Hout]%print_Ok).
  apply save_pyramid_Ok in Hsave as (-> & _ & Hout2 & Hwrite). rewrite <-Hfs in Hwrite.
  cbn [fst snd as_path] in Hwrite, Hout.
  assert (default randint (GenerateArgs.seed args)
          = match GenerateArgs.seed args with Some seed => seed | None => randint end)
    as Hseed by (by destruct (GenerateArgs.seed args)).
  rewrite Hseed. exists p. split; [done|]. split.
  - pose proof (load_written D OS J int_of_str _ _ _ _ Hwrite) as Hread.
    by rewrite (generated_sort_id _ _ _ _ _ _ _ _ _ _ _ _ Hgen) in Hread.
  - by rewrite Hout, Hout2.
Qed.

(** X25: [generate] without [--preview], when it succeeds, leaves at the
    output path a file that [load_pyramid] reads back as exactly the
    pyramid [generate_pyramid] built from the arguments (with the given
    seed, or the drawn one when none is given), and prints one line
    naming the path and the seed. *)
Theorem generate_then_load fuel now os_entropy randint args w w' :
  GenerateArgs.preview args = false →
  _handle_generate R D OS J C fuel now os_entropy randint args w = IoOk (tt, w') →
  ∃ p,
    generate_pyramid R fuel now os_entropy (GenerateArgs.levels args)
      (GenerateArgs.theme args) (Some (default randint (GenerateArgs.seed args)))
      (GenerateArgs.title args) (GenerateArgs.description args)
      (GenerateArgs.division_names args) None = Ok p ∧
    load_pyramid D OS J int_of_str (inl (GenerateArgs.output args)) w' = IoOk (p, w') ∧
    stdout OS w'
    = stdout OS w
        ++ ["Saved new pyramid to " +:+ path_str OS (path_of OS (GenerateArgs.output args))
            +:+ " (seed=" +:+ pretty (default randint (GenerateArgs.seed args)) +:+ ")"].
Proof. apply handle_generate_saved. Qed.


(** X27: [resample --preview] never writes: when it succeeds the files
    are those it started from, and the last line printed names the
    seed. *)
Theorem resample_preview_keeps_files fuel now os_entropy randint args w w' :
  ResampleArgs.preview args = true →
  _handle_resample R D OS J C int_of_str fuel now os_entropy randint args w
    = IoOk (tt, w') →
  fs OS w' = fs OS w ∧
  last (stdout OS w')
  = Some ("(Preview generated with seed "
          +:+ pretty (default randint (ResampleArgs.seed args)) +:+ ")").
Proof.
  intros Hpreview Hrun. unfold _handle_resample in Hrun. rewrite Hpreview in Hrun.
  apply io_bind_Ok in Hrun as (pyramid & w1 & [-> _]%load_pyramid_Ok & Hrun).
  destruct (negb _); [done|].
  apply io_bind_Ok in Hrun as (p1 & w2 & [_ ->]%io_lift_Ok & Hrun).
  apply io_bind_Ok in Hrun as ([] & w3 & [= <-] & [Hfs Hout]%print_Ok).
  cbn [fs stdout] in Hfs, Hout. split; [done|].
  rewrite Hout, last_snoc. by destruct (ResampleArgs.seed args).
Qed.
End commands_facts.

Lemma save_then_load_witness :
  load_pyramid Sample.clock Sample.table Sample.bits Sample.int_of_digits
    (inr "b.JSON") Sample.saved_b
  = IoOk (sort Sample.pyramid_b, Sample.saved_b) ∧
  "b.JSON" = as_path Sample.table (inl "b.JSON") ∧
  lower (suffix Sample.table "b.JSON") = ".json" ∧
  stdout Sample.table Sample.saved_b = stdout Sample.table Sample.empty_world.
Proof.
  apply (save_then_load Sample.clock Sample.table Sample.bits Sample.int_of_digits
           Sample.pyramid_b (inl "b.JSON") Sample.empty_world "b.JSON" Sample.saved_b).
  vm_compute. reflexivity.
Defined.


Lemma resample_needs_levels_witness :
  _handle_resample Sample.lcg Sample.clock Sample.table Sample.bits Sample.console
    Sample.int_of_digits 10 Sample.later 5 123456 Sample.resample_two_tops
    Sample.saved_two_tops
  = IoRaise (SystemExit
      "The template pyramid does not contain level metadata. Provide --levels explicitly.")
  ↔ truthy_seq (ResampleArgs.levels Sample.resample_two_tops) = false ∧
    truthy (default JNull (Pyramid.meta Sample.two_tops !! "levels")) = false.
Proof.
  apply (resample_needs_levels Sample.lcg Sample.clock Sample.table Sample.bits
           Sample.console Sample.int_of_digits 10 Sample.later 5 123456
           Sample.resample_two_tops Sample.saved_two_tops Sample.two_tops).
  vm_compute. reflexivity.
Defined.

Lemma resample_same_seed_witness :
  ∃ p1 target,
    load_pyramid Sample.clock Sample.table Sample.bits Sample.int_of_digits
      (inr target) (Sample.resampled_b false)
    = IoOk (p1, Sample.resampled_b false) ∧
    Pyramid.divisions p1 = Pyramid.divisions Sample.pyramid_b ∧
    Pyramid.title p1 = Pyramid.title Sample.pyramid_b ∧
    Pyramid.description p1 = Pyramid.description Sample.pyramid_b ∧
    Pyramid.meta p1
    = <[ "resampled_from" := JStr "b.JSON" ]> (Pyramid.meta Sample.pyramid_b) ∧
    Pyramid.generated_at p1 = Some Sample.later.
Proof.
  apply (resample_same_seed Sample.lcg Sample.clock Sample.table Sample.bits
           Sample.console Sample.int_of_digits
           10%nat "026-11-03T00:00:00" 5 [1] "far-east" 7 (Some "") (Some "") None
           Sample.pyramid_b 10%nat Sample.later 5 123456 "b.JSON" (Some "again.json")
           Sample.saved_b (Sample.resampled_b false));
    vm_compute; reflexivity.
Defined.

Lemma generate_then_load_witness :
  ∃ p,
    generate_pyramid Sample.lcg 10 Sample.later 5 [1] "garlemald" (Some 123456)
      None None None None = Ok p ∧
    load_pyramid Sample.clock Sample.table Sample.bits Sample.int_of_digits
      (inl "new.json") Sample.generated_new = IoOk (p, Sample.generated_new) ∧
    stdout Sample.table Sample.generated_new
    = [] ++ ["Saved new pyramid to new.json (seed=123456)"].
Proof.
  apply (generate_then_load Sample.lcg Sample.clock Sample.table Sample.bits
           Sample.console Sample.int_of_digits 10 Sample.later 5 123456
           (Sample.generate_new false) Sample.empty_world Sample.generated_new);
    vm_compute; reflexivity.
Defined.


Lemma resample_preview_keeps_files_witness :
  fs Sample.table (Sample.resampled_b true) = fs Sample.table Sample.saved_b ∧
  last (stdout Sample.table (Sample.resampled_b true))
  = Some "(Preview generated with seed 7)".
Proof.
  apply (resample_preview_keeps_files Sample.lcg Sample.clock Sample.table
           Sample.bits Sample.console Sample.int_of_digits 10 Sample.later 5 123456
           (Sample.resample_b true) Sample.saved_b (Sample.resampled_b true));
    [reflexivity | vm_compute; reflexivity].
Defined.

(** ** The cycle of locations *)

Lemma take_app_more {A} (n : nat) (l k1 k2 : list A) :
  (n ≤ length (l ++ k1))%nat → take n (l ++ k1 ++ k2) = take n (l ++ k1).
Proof. intros Hn. rewrite (assoc_L (++)). by rewrite take_app_le. Qed.

Lemma length_cycle (n : nat) (l : list string) :
  l ≠ [] → (n ≤ length (mjoin (replicate n l)))%nat.
Proof.
  intros Hl. induction n as [|n IH]; [done|].
  change (mjoin (replicate (S n) l)) with (l ++ mjoin (replicate n l)).
  rewrite length_app. destruct l; [done|]. cbn [length]. lia.
Qed.

Lemma cycle_snoc (n : nat) (l : list string) :
  mjoin (replicate (S n) l) = mjoin (replicate n l) ++ l.
Proof.
  rewrite replicate_S_end, join_app.
  change (mjoin [l]) with (l ++ []). by rewrite app_nil_r.
Qed.

Lemma islice_from fuel theme n rest :
  Theme.locations theme ≠ [] → (0 < fuel)%nat →
  islice fuel theme n rest
  = Ok (take n (rest ++ mjoin (replicate n (Theme.locations theme)))).
Proof.
  intros Hne Hfuel. revert rest.
  induction n as [|n IH]; intros rest; [done|].
  assert (∀ r, take n (r ++ mjoin (replicate n (Theme.locations theme)))
                 = take n (r ++ mjoin (replicate (S n) (Theme.locations theme))))
    as Hmore.
  { intros r. rewrite cycle_snoc. symmetry. apply take_app_more.
    rewrite length_app. pose proof (length_cycle n _ Hne). lia. }
  cbn [islice]. destruct rest as [|x r].
  - destruct fuel as [|fuel]; [lia|]. cbn [iter_location_cycle_next].
    destruct (Theme.locations theme) as [|x r] eqn:Hlocs; [done|].
    destruct fuel; cbn [iter_location_cycle_next result_bind fst snd];
      rewrite IH; cbn [result_map app];
      change (mjoin (replicate (S n) (x :: r)))
        with ((x :: r) ++ mjoin (replicate n (x :: r)));
      by cbn [app take].
  - destruct fuel; cbn [iter_location_cycle_next result_bind fst snd];
      rewrite IH; cbn [result_map app take]; by rewrite Hmore.
Qed.

(** X28: the first [n] values of [iter_location_cycle] are the first [n]
    items of the theme's locations written out over and over, whenever
    the theme has a location at all. *)
Theorem location_cycle_values fuel theme n :
  Theme.locations theme ≠ [] → (0 < fuel)%nat →
  islice fuel theme n (iter_location_cycle theme)
  = Ok (take n (mjoin (replicate n (Theme.locations theme)))).
Proof. intros Hne Hfuel. by rewrite islice_from. Qed.

Lemma location_cycle_values_witness :
  islice 1 theme_eorzea 20 (iter_location_cycle theme_eorzea)
  = Ok (take 20 (mjoin (replicate 20 (Theme.locations theme_eorzea)))).
Proof. apply (location_cycle_values 1 theme_eorzea 20); [done|lia]. Defined.

(** X29: asked for a value, [iter_location_cycle] yields one if and
    only if the theme has a location: over an empty list the loop
    [while True] goes round without ever reaching [yield]. *)
Theorem location_cycle_yields theme :
  (∃ fuel value, iter_location_cycle_next fuel theme (iter_location_cycle theme)
                 = Ok value)
  ↔ Theme.locations theme ≠ [].
Proof.
  unfold iter_location_cycle. split.
  - intros (fuel & value & Hnext) Hlocs.
    induction fuel as [|fuel IH]; [done|].
    cbn [iter_location_cycle_next] in Hnext. rewrite Hlocs in Hnext.
    apply IH. by destruct fuel.
  - intros Hne. destruct (Theme.locations theme) as [|x r] eqn:Hlocs; [done|].
    exists 1%nat, (x, r). cbn [iter_location_cycle_next]. by rewrite Hlocs.
Qed.
